(** * Stocker: buy/sell ledger with fee computation (src/stocker/tmp.py)

    A shallow embedding of the classes [Transaction], [BuyTransaction],
    [SellTransaction] and [Stock], and of the Python built-ins they rely on
    ([str.split], [int], the arithmetic of [int] and [float]).

    Conventions of the embedding:
    - a Python [str] is a [string] (ASCII text; code points above 127 are
      outside the model);
    - a Python [int] is a [Z]; a Python [float] is a primitive binary64
      [float]; a value that may be either is a [pynum];
    - an exception is a value of [exn]; code that may raise returns a
      [result]; a method that mutates [self] returns the new state next to
      its outcome, so that the state left behind by a raise is visible;
    - [assert] statements are executed (the interpreter runs without [-O]);
      the [isinstance] assertions of [Transaction.__init__] are discharged
      by the types of the arguments;
    - [BuyTransaction.__str__] is embedded with the text of a number left
      abstract, and [StockManager.add_database] from the value the parser
      returns on; [Stock.__str__] (which follows the insertion order of the
      dictionary) and [StockManager.output] (which writes files) are not
      embedded. *)

From Stdlib Require Import ZArith Lia List Ascii String Floats Reals Lra.
From stdpp Require Import base option list strings gmap.

Set Warnings "-inexact-float".

Local Open Scope Z_scope.

(** ** Exceptions and results *)

Inductive exn : Type :=
  | AssertionError (msg : option Z)   (* [assert cond, msg] *)
  | ValueError                         (* [int] on a malformed literal *)
  | KeyError (key : Z)                 (* missing key of [_tr_recorder] *)
  | OverflowError                      (* [int] too large for a [float] *)
  | NotImplementedError.               (* [Transaction.service_percent] *)

Inductive result (A : Type) : Type :=
  | Ok (a : A)
  | Raise (e : exn).
Arguments Ok {A} a.
Arguments Raise {A} e.

#[global] Instance result_ret : MRet result := fun A a => Ok a.
#[global] Instance result_bind : MBind result := fun A B f m =>
  match m with
  | Ok a => f a
  | Raise e => Raise e
  end.

(** [assert cond, msg] *)
Definition py_assert (cond : bool) (msg : option Z) : result unit :=
  if cond then Ok tt else Raise (AssertionError msg).

(** ** Python numbers *)

Inductive pynum : Type :=
  | PyInt (z : Z)
  | PyFloat (f : float).

(** Conversion of an [int] operand of a mixed operation: the nearest
    binary64 value (ties to even), [OverflowError] when that is infinite. *)
Definition float_of_int (z : Z) : result float :=
  let f := SF2Prim (binary_normalize prec emax z 0 false) in
  if PrimFloat.is_infinity f then Raise OverflowError else Ok f.

Definition py_arith (fz : Z -> Z -> Z) (ff : float -> float -> float)
    (a b : pynum) : result pynum :=
  match a, b with
  | PyInt x, PyInt y => Ok (PyInt (fz x y))
  | PyInt x, PyFloat y => x' ← float_of_int x; Ok (PyFloat (ff x' y))
  | PyFloat x, PyInt y => y' ← float_of_int y; Ok (PyFloat (ff x y'))
  | PyFloat x, PyFloat y => Ok (PyFloat (ff x y))
  end.

Definition py_mul : pynum -> pynum -> result pynum := py_arith Z.mul PrimFloat.mul.
Definition py_add : pynum -> pynum -> result pynum := py_arith Z.add PrimFloat.add.
Definition py_sub : pynum -> pynum -> result pynum := py_arith Z.sub PrimFloat.sub.

(** ** Python strings: [str.split] and [int] *)

(** [s.split(sep)] for a one-character separator: the pieces between the
    occurrences of [sep], in order; never an empty list. *)
Fixpoint py_split (sep : ascii) (s : string) : list string :=
  match s with
  | EmptyString => [EmptyString]
  | String c s' =>
      if Ascii.eqb c sep then EmptyString :: py_split sep s'
      else match py_split sep s' with
           | [] => [String c EmptyString]
           | w :: ws => String c w :: ws
           end
  end.

(** The white space [int] skips at both ends of an ASCII string:
    tab, line feed, vertical tab, form feed, carriage return, space. *)
Definition is_space (c : ascii) : bool :=
  let n := Z.of_nat (nat_of_ascii c) in
  ((9 <=? n) && (n <=? 13)) || (n =? 32).

Definition digit_value (c : ascii) : option Z :=
  let n := Z.of_nat (nat_of_ascii c) in
  if (48 <=? n) && (n <=? 57) then Some (n - 48) else None.

Definition is_underscore (c : ascii) : bool := Ascii.eqb c "_"%char.

Fixpoint lstrip (l : list ascii) : list ascii :=
  match l with
  | c :: l' => if is_space c then lstrip l' else l
  | [] => []
  end.

Definition strip (l : list ascii) : list ascii :=
  rev (lstrip (rev (lstrip l))).

(** The digits of a decimal literal after the first one: digits, with single
    underscores allowed between two digits. [prev_us] tells that the
    previous character was an underscore. *)
Fixpoint int_digits (prev_us : bool) (acc : Z) (l : list ascii) : option Z :=
  match l with
  | [] => if prev_us then None else Some acc
  | c :: l' =>
      match digit_value c with
      | Some d => int_digits false (10 * acc + d) l'
      | None =>
          if is_underscore c && negb prev_us then int_digits true acc l'
          else None
      end
  end.

Definition int_literal (l : list ascii) : option Z :=
  match l with
  | c :: l' =>
      match digit_value c with
      | Some d => int_digits false d l'
      | None => None
      end
  | [] => None
  end.

(** The interpreter's limit on the number of digit characters of a string
    given to [int]: [sys.get_int_max_str_digits()], 4300 unless it is
    configured otherwise. Underscores, sign and white space do not count;
    leading zeros do. *)
Definition max_str_digits : nat := 4300.

Fixpoint digit_count (l : list ascii) : nat :=
  match l with
  | [] => 0
  | c :: l' =>
      match digit_value c with
      | Some _ => S (digit_count l')
      | None => digit_count l'
      end
  end.

(** [int(s)] for a string, base ten: optional white space, an optional
    sign, a decimal literal, optional white space; a literal with more
    digits than the limit is rejected like a malformed one. *)
Definition py_int (s : string) : result Z :=
  let body := strip (list_ascii_of_string s) in
  let signed :=
    match body with
    | c :: l' =>
        if Ascii.eqb c "-"%char then Z.opp <$> int_literal l'
        else if Ascii.eqb c "+"%char then int_literal l'
        else int_literal body
    | [] => None
    end in
  match signed with
  | Some z =>
      if (max_str_digits <? digit_count body)%nat then Raise ValueError
      else Ok z
  | None => Raise ValueError
  end.

(** [[f(x) for x in l]] for an [f] that may raise: left to right, stopping
    at the first exception. *)
Fixpoint py_map {A B : Type} (f : A -> result B) (l : list A) : result (list B) :=
  match l with
  | [] => Ok []
  | x :: l' => y ← f x; ys ← py_map f l'; Ok (y :: ys)
  end.

(** ** The classes *)

(** What a transaction reads through its back-reference [self.stock]: the
    attributes a stock is given at construction, which no method ever
    assigns again. *)
Module StockAttrs.
Record t : Type := {
  id : Z;
  name : string;
  commission : pynum;
  stamp_duty : pynum;
  transfer_fee : pynum
}.
End StockAttrs.

Module Transaction.

Record t : Type := {
  stock : StockAttrs.t;
  timing : string;
  id : Z;
  price : pynum;
  quantity : Z
}.

(** The class and its subclasses: each embeds the attributes set by
    [Transaction.__init__] and gives its own [service_percent]. *)
Class Like (T : Type) : Type := {
  base : T -> t;
  service_percent : T -> result pynum
}.

(** The assertion leaves a list of three pieces, so the default of [nth]
    is never read. *)
Definition timing2id (timing : string) : result Z :=
  let tmp := py_split "-" timing in
  _ ← py_assert (Nat.eqb (length tmp) 3) None;
  tmp ← py_map py_int tmp;
  Ok (nth 0 tmp 0 * 10 ^ 6 + nth 1 tmp 0 * 10 ^ 2 + nth 2 tmp 0).

Definition init (stock : StockAttrs.t) (timing : string) (price : pynum)
    (quantity : Z) : result t :=
  id ← timing2id timing;
  Ok {| stock := stock; timing := timing; id := id;
        price := price; quantity := quantity |}.

Definition fee `{Like T} (self : T) : result pynum :=
  py_mul (price (base self)) (PyInt (quantity (base self))).

Definition fee_final `{Like T} (self : T) : result pynum :=
  f ← fee self;
  p ← service_percent self;
  d ← py_sub (PyInt 1) p;
  py_mul f d.

Definition service_charge `{Like T} (self : T) : result pynum :=
  f ← fee self;
  p ← service_percent self;
  py_mul f p.

#[global] Instance like : Like t := {|
  base := fun self => self;
  service_percent := fun _ => Raise NotImplementedError
|}.

End Transaction.

Module SellTransaction.

Record t : Type := { super : Transaction.t }.

Definition init (stock : StockAttrs.t) (timing : string) (price : pynum)
    (quantity : Z) : result t :=
  s ← Transaction.init stock timing price quantity;
  Ok {| super := s |}.

Definition quantity (self : t) : Z := Transaction.quantity (super self).

Definition service_percent (self : t) : result pynum :=
  let stock := Transaction.stock (super self) in
  r ← py_add (StockAttrs.commission stock) (StockAttrs.transfer_fee stock);
  py_add r (StockAttrs.stamp_duty stock).

#[global] Instance like : Transaction.Like t := {|
  Transaction.base := super;
  Transaction.service_percent := service_percent
|}.

End SellTransaction.

Module BuyTransaction.

Record t : Type := {
  super : Transaction.t;
  empty : bool;
  sells : list SellTransaction.t
}.

Definition init (stock : StockAttrs.t) (timing : string) (price : pynum)
    (quantity : Z) : result t :=
  s ← Transaction.init stock timing price quantity;
  Ok {| super := s; empty := false; sells := [] |}.

Definition quantity (self : t) : Z := Transaction.quantity (super self).

Definition service_percent (self : t) : result pynum :=
  let stock := Transaction.stock (super self) in
  py_add (StockAttrs.commission stock) (StockAttrs.transfer_fee stock).

#[global] Instance like : Transaction.Like t := {|
  Transaction.base := super;
  Transaction.service_percent := service_percent
|}.

(** The property [quantity_left]: the value, and [self] with its [empty]
    flag assigned. *)
Definition quantity_left (self : t) : t * Z :=
  let delta :=
    fold_left (fun delta sell => delta - SellTransaction.quantity sell)
              (sells self) (quantity self) in
  ({| super := super self; empty := delta =? 0; sells := sells self |},
   delta).

(** The method [sell]: the append comes first, the assertion second, and
    the message of the assertion reads the property once more. *)
Definition sell (self : t) (tr : SellTransaction.t) : t * result unit :=
  let self :=
    {| super := super self; empty := empty self;
       sells := sells self ++ [tr] |} in
  let '(self, delta) := quantity_left self in
  if 0 <=? delta then (self, Ok tt)
  else
    let '(self, msg) := quantity_left self in
    (self, Raise (AssertionError (Some msg))).

End BuyTransaction.

Module Stock.

Record t : Type := {
  attrs : StockAttrs.t;
  _tr_recorder : gmap Z BuyTransaction.t
}.

Definition default_commission : pynum := PyFloat 0.0005.
Definition default_stamp_duty : pynum := PyFloat 0.0005.
Definition default_transfer_fee : pynum := PyFloat 0.00001.

Definition init (name : string) (id : Z)
    (commission stamp_duty transfer_fee : pynum) : t :=
  {| attrs := {| StockAttrs.id := id; StockAttrs.name := name;
                 StockAttrs.commission := commission;
                 StockAttrs.stamp_duty := stamp_duty;
                 StockAttrs.transfer_fee := transfer_fee |};
     _tr_recorder := ∅ |}.

Definition buy (self : t) (timing : string) (price : pynum) (quantity : Z)
    : t * result unit :=
  match BuyTransaction.init (attrs self) timing price quantity with
  | Raise e => (self, Raise e)
  | Ok tr =>
      ({| attrs := attrs self;
          _tr_recorder :=
            <[Transaction.id (BuyTransaction.super tr) := tr]>
              (_tr_recorder self) |},
       Ok tt)
  end.

Definition sell (self : t) (buy_timing timing : string) (price : pynum)
    (quantity : Z) : t * result unit :=
  match SellTransaction.init (attrs self) timing price quantity with
  | Raise e => (self, Raise e)
  | Ok tr =>
      match Transaction.timing2id buy_timing with
      | Raise e => (self, Raise e)
      | Ok key =>
          match _tr_recorder self !! key with
          | None => (self, Raise (KeyError key))
          | Some trans_buy =>
              let '(trans_buy, r) := BuyTransaction.sell trans_buy tr in
              ({| attrs := attrs self;
                  _tr_recorder := <[key := trans_buy]> (_tr_recorder self) |},
               r)
          end
      end
  end.

End Stock.

(** The scenario of the [__main__] block, first stock and first buy. *)
Definition main_stock : Stock.t :=
  Stock.init "ABC" 30063 (PyFloat 0.0003) (PyFloat 0.0005) (PyFloat 0.00002).

Definition main_after_buy : Stock.t * result unit :=
  Stock.buy main_stock "2024-0205-10" (PyFloat 25.6) 200.

Definition main_after_sell : Stock.t * result unit :=
  Stock.sell (fst main_after_buy) "2024-0205-10" "2024-0312-14"
             (PyFloat 36.36) 200.

(** A buy and a sell of that stock as their constructors leave them, for a
    given quantity. *)
Definition main_buy (quantity : Z) : BuyTransaction.t :=
  {| BuyTransaction.super :=
       {| Transaction.stock := Stock.attrs main_stock;
          Transaction.timing := "2024-0205-10";
          Transaction.id := 2024020510;
          Transaction.price := PyFloat 25.6;
          Transaction.quantity := quantity |};
     BuyTransaction.empty := false;
     BuyTransaction.sells := [] |}.

Definition main_sell (quantity : Z) : SellTransaction.t :=
  {| SellTransaction.super :=
       {| Transaction.stock := Stock.attrs main_stock;
          Transaction.timing := "2024-0312-14";
          Transaction.id := 2024031214;
          Transaction.price := PyFloat 36.36;
          Transaction.quantity := quantity |} |}.

(** A stock that charges nothing, with a buy and a sell at integer prices:
    every number involved is an [int]. *)
Definition plain_attrs : StockAttrs.t :=
  {| StockAttrs.id := 1; StockAttrs.name := "PLAIN";
     StockAttrs.commission := PyInt 0; StockAttrs.stamp_duty := PyInt 0;
     StockAttrs.transfer_fee := PyInt 0 |}.

Definition plain_buy : BuyTransaction.t :=
  {| BuyTransaction.super :=
       {| Transaction.stock := plain_attrs;
          Transaction.timing := "2024-0205-10";
          Transaction.id := 2024020510;
          Transaction.price := PyInt 25;
          Transaction.quantity := 200 |};
     BuyTransaction.empty := false;
     BuyTransaction.sells := [] |}.

Definition plain_sell : SellTransaction.t :=
  {| SellTransaction.super :=
       {| Transaction.stock := plain_attrs;
          Transaction.timing := "2024-0312-14";
          Transaction.id := 2024031214;
          Transaction.price := PyInt 36;
          Transaction.quantity := 200 |} |}.

(** ** Vocabulary of the statements *)

(** [timing] splits into exactly three pieces that [int] reads as [Y], [MD]
    and [S]. *)
Definition timing_components (timing : string) (Y MD S : Z) : Prop :=
  exists a b c : string,
    py_split "-" timing = [a; b; c] /\
    py_int a = Ok Y /\ py_int b = Ok MD /\ py_int c = Ok S.

(** Lexicographic order on triples of integers. *)
Definition lex_lt (t1 t2 : Z * Z * Z) : Prop :=
  let '(y1, m1, s1) := t1 in
  let '(y2, m2, s2) := t2 in
  y1 < y2 \/ (y1 = y2 /\ (m1 < m2 \/ (m1 = m2 /\ s1 < s2))).

(** The sum of the quantities of a list of sells. *)
Definition sold (sells : list SellTransaction.t) : Z :=
  fold_right Z.add 0 (map SellTransaction.quantity sells).

(** [sells_ok b trs b']: calling [b.sell(tr)] for each [tr] of [trs] in
    turn, every call returns normally, and [b'] is the final state. *)
Inductive sells_ok :
    BuyTransaction.t -> list SellTransaction.t -> BuyTransaction.t -> Prop :=
  | sells_ok_nil b : sells_ok b [] b
  | sells_ok_cons b tr b1 trs b' :
      BuyTransaction.sell b tr = (b1, Ok tt) ->
      sells_ok b1 trs b' ->
      sells_ok b (tr :: trs) b'.

(** ** [BuyTransaction.__str__] *)

(** The text of a number inside an f-string is left abstract: [py_format]
    stands for [format(x, '')], the shortest decimal text that reads back
    as the same number. *)
Section Rendering.
Variable py_format : pynum -> string.





End Rendering.

(** ** [StockManager.add_database] *)

(** The value [js.load] returns is the input of the embedding: a record
    with every key the method reads, each of the type the classes assert.
    Opening and parsing the file are outside the model. *)
Module StockManager.

Record sell_record : Type := {
  sell_timing : string;
  sell_price : pynum;
  sell_quantity : Z
}.

Record buy_record : Type := {
  timing : string;
  price : pynum;
  quantity : Z;
  sell : list sell_record
}.

Record database : Type := {
  name : string;
  id : Z;
  commission : pynum;
  stamp_duty : pynum;
  transfer_fee : pynum;
  record : list buy_record
}.

Record t : Type := { stocks : gmap string Stock.t }.

Definition init : t := {| stocks := ∅ |}.

(** The inner loop [for sell in buy['sell']: stock.sell(...)]: the first
    exception ends it, with the stock as the calls so far left it. *)
Fixpoint sell_loop (stock : Stock.t) (buy_timing : string)
    (sells : list sell_record) : Stock.t * result unit :=
  match sells with
  | [] => (stock, Ok tt)
  | s :: sells' =>
      match Stock.sell stock buy_timing (sell_timing s) (sell_price s)
                       (sell_quantity s) with
      | (stock, Ok _) => sell_loop stock buy_timing sells'
      | (stock, Raise e) => (stock, Raise e)
      end
  end.

(** The outer loop [for buy in db['record']: stock.buy(...); ...]. *)
Fixpoint record_loop (stock : Stock.t) (records : list buy_record)
    : Stock.t * result unit :=
  match records with
  | [] => (stock, Ok tt)
  | buy :: records' =>
      match Stock.buy stock (timing buy) (price buy) (quantity buy) with
      | (stock, Raise e) => (stock, Raise e)
      | (stock, Ok _) =>
          match sell_loop stock (timing buy) (sell buy) with
          | (stock, Ok _) => record_loop stock records'
          | (stock, Raise e) => (stock, Raise e)
          end
      end
  end.

(** The stock is stored in [self.stocks] before the loops run, and the
    loops mutate that same object: whatever the outcome, the registry holds
    the stock as the loops left it. *)
Definition add_database (self : t) (db : database) : t * result unit :=
  let stock := Stock.init (name db) (id db) (commission db) (stamp_duty db)
                          (transfer_fee db) in
  let '(stock, r) := record_loop stock (record db) in
  ({| stocks := <[name db := stock]> (stocks self) |}, r).

End StockManager.

(** Records of the shape [add_database] reads: the two buys of
    [__main__] with their sells, and the same with the first sell one unit
    too large. *)
Definition main_db_with (first_sell_quantity : Z) : StockManager.database :=
  {| StockManager.name := "ABC";
     StockManager.id := 30063;
     StockManager.commission := PyFloat 0.0003;
     StockManager.stamp_duty := PyFloat 0.0005;
     StockManager.transfer_fee := PyFloat 0.00002;
     StockManager.record :=
       [ {| StockManager.timing := "2024-0205-10";
            StockManager.price := PyFloat 25.6;
            StockManager.quantity := 200;
            StockManager.sell :=
              [ {| StockManager.sell_timing := "2024-0312-14";
                   StockManager.sell_price := PyFloat 36.36;
                   StockManager.sell_quantity := first_sell_quantity |} ] |};
         {| StockManager.timing := "2024-0206-10";
            StockManager.price := PyFloat 27.85;
            StockManager.quantity := 200;
            StockManager.sell :=
              [ {| StockManager.sell_timing := "2024-0312-14";
                   StockManager.sell_price := PyFloat 36.36;
                   StockManager.sell_quantity := 200 |} ] |} ] |}.

Definition main_db : StockManager.database := main_db_with 200.
Definition oversold_db : StockManager.database := main_db_with 201.

(** A sell of the ledger is the one the constructor builds from a sell
    record. *)
Definition sell_of_record (attrs : StockAttrs.t) (tr : SellTransaction.t)
    (s : StockManager.sell_record) : Prop :=
  SellTransaction.init attrs (StockManager.sell_timing s)
    (StockManager.sell_price s) (StockManager.sell_quantity s) = Ok tr.

(** ** Vocabulary of the further properties *)

(** The number of occurrences of a character in a string. *)
Fixpoint count_char (c : ascii) (s : string) : nat :=
  match s with
  | EmptyString => 0
  | String c' s' => (if Ascii.eqb c' c then 1 else 0) + count_char c s'
  end.

(** A non-empty string of decimal digits. *)
Definition is_digit (c : ascii) : bool :=
  match digit_value c with Some _ => true | None => false end.

Definition all_digits (s : string) : bool :=
  match s with
  | EmptyString => false
  | _ => forallb is_digit (list_ascii_of_string s)
  end.

(** What holds of every recorded buy whatever calls were made on the
    stock: it is stored under its own identifier, it and its sells carry
    the attributes of the stock, and once it has a sell its [empty] flag
    tells whether nothing is left. *)
Definition entry_ok (stock : Stock.t) (key : Z) (b : BuyTransaction.t) : Prop :=
  Transaction.id (BuyTransaction.super b) = key /\
  Transaction.stock (BuyTransaction.super b) = Stock.attrs stock /\
  (forall tr, tr ∈ BuyTransaction.sells b ->
     Transaction.stock (SellTransaction.super tr) = Stock.attrs stock) /\
  (BuyTransaction.sells b <> [] ->
     BuyTransaction.empty b = (snd (BuyTransaction.quantity_left b) =? 0)).

Definition ledger_ok (stock : Stock.t) : Prop :=
  forall key b, Stock._tr_recorder stock !! key = Some b -> entry_ok stock key b.

(** No recorded buy with a sell is over-sold. *)
Definition ledger_sound (stock : Stock.t) : Prop :=
  forall key b, Stock._tr_recorder stock !! key = Some b ->
    BuyTransaction.sells b <> [] -> 0 <= snd (BuyTransaction.quantity_left b).

(** The two kinds of exception the ledger code raises on bad data. *)
Definition format_or_quantity (e : exn) : Prop :=
  (exists msg, e = AssertionError msg) \/ e = ValueError.

(** The calls a user can make on a stock. *)
Inductive call : Type :=
  | CallBuy (timing : string) (price : pynum) (quantity : Z)
  | CallSell (buy_timing timing : string) (price : pynum) (quantity : Z).

Definition do_call (stock : Stock.t) (c : call) : Stock.t * result unit :=
  match c with
  | CallBuy timing price quantity => Stock.buy stock timing price quantity
  | CallSell buy_timing timing price quantity =>
      Stock.sell stock buy_timing timing price quantity
  end.

(** The stock after a list of calls, exceptions caught and ignored by the
    caller. *)
Definition after_calls (stock : Stock.t) (cs : list call) : Stock.t :=
  fold_left (fun stock c => fst (do_call stock c)) cs stock.

(** Every call of the list returns normally. *)
Fixpoint calls_return (stock : Stock.t) (cs : list call) : Prop :=
  match cs with
  | [] => True
  | c :: cs' =>
      snd (do_call stock c) = Ok tt /\ calls_return (fst (do_call stock c)) cs'
  end.

(** ** The value of a number *)

(** The real number a binary64 value stands for; 0 for the infinities and
    NaN. *)
Definition SF2R (x : spec_float) : R :=
  match x with
  | S754_finite s m e => (IZR (cond_Zopp s (Z.pos m)) * powerRZ 2 e)%R
  | _ => 0%R
  end.

Definition SF_finite (x : spec_float) : bool :=
  match x with
  | S754_zero _ | S754_finite _ _ _ => true
  | _ => false
  end.

(** The real number a Python number stands for (0 for [inf] and [nan]). *)
Definition num_value (x : pynum) : R :=
  match x with
  | PyInt z => IZR z
  | PyFloat f => SF2R (Prim2SF f)
  end.

(** [math.isfinite(x)] *)
Definition num_finite (x : pynum) : bool :=
  match x with
  | PyInt _ => true
  | PyFloat f => SF_finite (Prim2SF f)
  end.

(** [0 <= p <= 1] *)
Definition is_rate (p : pynum) : bool :=
  match p with
  | PyInt z => (0 <=? z) && (z <=? 1)
  | PyFloat f => (0 <=? f)%float && (f <=? 1)%float
  end.

(** [self.fee_final + self.service_charge] *)
Definition fee_sum `{Transaction.Like T} (self : T) : result pynum :=
  n ← Transaction.fee_final self;
  c ← Transaction.service_charge self;
  py_add n c.

(** The tolerance within which [fee_final + service_charge] meets [fee]:
    eight units of rounding (2 ^ -53 each) relative to [fee], and four
    times the least positive float. *)
Definition fee_rel_tol : R := powerRZ 2 (-50).
Definition fee_abs_tol : R := powerRZ 2 (-1072).

(** The error of one rounding to nearest: [half_ulp] relative to the exact
    result, or [half_tiny] under the normal range. *)
Definition half_ulp : R := powerRZ 2 (-53).
Definition half_tiny : R := powerRZ 2 (-1075).

(** What [k] right shifts of a natural number [m] leave in a [shr_record]:
    the quotient, the last bit shifted out and whether a lower bit was
    set. *)
Definition shifted (m : Z) (k : nat) (mrs : shr_record) : Prop :=
  shr_m mrs = m / 2 ^ Z.of_nat k /\
  (shr_r mrs = true <->
   (0 < k)%nat /\ Z.odd (m / 2 ^ (Z.of_nat k - 1)) = true) /\
  (shr_s mrs = true <-> (0 < k)%nat /\ m mod 2 ^ (Z.of_nat k - 1) <> 0).

(** The float (or the overflow) for a rounded mantissa [m1] at exponent
    [e1], as the last step of [binary_round_aux] builds it. *)
Definition rounded (sx : bool) (m1 e1 : Z) : spec_float :=
  match m1 with
  | Z0 => S754_zero sx
  | Zpos p => if e1 <=? emax - prec then S754_finite sx p e1 else S754_infinity sx
  | Zneg _ => S754_nan
  end.

(** A stock whose rates are the integers 1, 1 and 0, with a buy and a sell
    at integer prices. *)
Definition whole_attrs : StockAttrs.t :=
  {| StockAttrs.id := 2; StockAttrs.name := "WHOLE";
     StockAttrs.commission := PyInt 1; StockAttrs.stamp_duty := PyInt 1;
     StockAttrs.transfer_fee := PyInt 0 |}.

Definition whole_buy : BuyTransaction.t :=
  {| BuyTransaction.super :=
       {| Transaction.stock := whole_attrs;
          Transaction.timing := "2024-0205-10";
          Transaction.id := 2024020510;
          Transaction.price := PyInt 25;
          Transaction.quantity := 200 |};
     BuyTransaction.empty := false;
     BuyTransaction.sells := [] |}.

Definition whole_sell : SellTransaction.t :=
  {| SellTransaction.super :=
       {| Transaction.stock := whole_attrs;
          Transaction.timing := "2024-0312-14";
          Transaction.id := 2024031214;
          Transaction.price := PyInt 36;
          Transaction.quantity := 200 |} |}.

(** The buy of the scenario in a stock whose commission is 1e17. *)
Definition runaway_attrs : StockAttrs.t :=
  {| StockAttrs.id := 3; StockAttrs.name := "RUNAWAY";
     StockAttrs.commission := PyFloat 1e17;
     StockAttrs.stamp_duty := PyFloat 0.0005;
     StockAttrs.transfer_fee := PyFloat 0.00002 |}.

Definition runaway_buy : BuyTransaction.t :=
  {| BuyTransaction.super :=
       {| Transaction.stock := runaway_attrs;
          Transaction.timing := "2024-0205-10";
          Transaction.id := 2024020510;
          Transaction.price := PyFloat 25.6;
          Transaction.quantity := 200 |};
     BuyTransaction.empty := false;
     BuyTransaction.sells := [] |}.

(** A buy at a price of 1e308 in a stock that charges nothing: its [fee]
    overflows. *)
Definition free_attrs : StockAttrs.t :=
  {| StockAttrs.id := 4; StockAttrs.name := "FREE";
     StockAttrs.commission := PyFloat 0; StockAttrs.stamp_duty := PyFloat 0;
     StockAttrs.transfer_fee := PyFloat 0 |}.

Definition overflowing_buy : BuyTransaction.t :=
  {| BuyTransaction.super :=
       {| Transaction.stock := free_attrs;
          Transaction.timing := "2024-0205-10";
          Transaction.id := 2024020510;
          Transaction.price := PyFloat 1e308;
          Transaction.quantity := 10 |};
     BuyTransaction.empty := false;
     BuyTransaction.sells := [] |}.

(** * Properties *)

(** Closed statements about the scenario are settled by evaluation. *)
Ltac by_evaluation := vm_compute; reflexivity.

(** ** The built-ins on sample inputs *)

Example py_split_samples :
  py_split "-" "2024-0205-10" = ["2024"; "0205"; "10"]%string /\
  py_split "-" "20240205" = ["20240205"]%string /\
  py_split "-" "" = [""]%string /\
  py_split "-" "2024--10-" = ["2024"; ""; "10"; ""]%string.
Proof. repeat split. Qed.

Example py_int_samples :
  py_int "0205" = Ok 205 /\ py_int " +1_0 " = Ok 10 /\ py_int "-7" = Ok (-7) /\
  py_int "" = Raise ValueError /\ py_int "1 0" = Raise ValueError /\
  py_int "1__0" = Raise ValueError /\ py_int "_1" = Raise ValueError /\
  py_int "1_" = Raise ValueError /\ py_int "+ 1" = Raise ValueError /\
  py_int "0x10" = Raise ValueError /\ py_int "02x5" = Raise ValueError.
Proof. repeat split. Qed.

Example py_int_digit_limit :
  (exists z, py_int (string_of_list_ascii (repeat "1"%char 4300)) = Ok z) /\
  py_int (string_of_list_ascii (repeat "1"%char 4301)) = Raise ValueError /\
  py_int (string_of_list_ascii (repeat "0"%char 4301)) = Raise ValueError.
Proof.
  split; [|split; by_evaluation].
  destruct (py_int (string_of_list_ascii (repeat "1"%char 4300)))
    as [z|e] eqn:Hz; [by exists z|].
  vm_compute in Hz. discriminate.
Qed.

Example float_of_int_samples :
  float_of_int 200 = Ok 200%float /\
  float_of_int (2 ^ 53 + 1) = Ok 9007199254740992%float /\
  float_of_int (2 ^ 1024 - 2 ^ 970 - 1) = Ok 1.7976931348623157e308%float /\
  float_of_int (2 ^ 1024 - 2 ^ 970) = Raise OverflowError.
Proof. repeat split; by_evaluation. Qed.

Example timing2id_samples :
  Transaction.timing2id "2024-0205-10" = Ok 2024020510 /\
  Transaction.timing2id "2024-0312-14" = Ok 2024031214 /\
  Transaction.timing2id "2024-0205" = Raise (AssertionError None) /\
  Transaction.timing2id "2024-02-05-10" = Raise (AssertionError None) /\
  Transaction.timing2id "2024-02x5-10" = Raise ValueError /\
  Transaction.timing2id "2024--10" = Raise ValueError.
Proof. repeat split. Qed.

(** ** [str.split] *)

Lemma py_split_not_nil sep s : py_split sep s <> [].
Proof.
  destruct s as [|c s]; simpl; [discriminate|].
  destruct (Ascii.eqb c sep); [discriminate|].
  destruct (py_split sep s); discriminate.
Qed.

(** No piece contains the separator. *)
Lemma py_split_no_sep sep s w :
  w ∈ py_split sep s -> sep ∉ list_ascii_of_string w.
Proof.
  revert w. induction s as [|c s IH]; simpl; intros w Hw.
  - apply list_elem_of_singleton in Hw. subst w. simpl. apply not_elem_of_nil.
  - destruct (Ascii.eqb_spec c sep) as [->|Hc].
    + apply elem_of_cons in Hw as [->|Hw]; [apply not_elem_of_nil | auto].
    + destruct (py_split sep s) as [|w0 ws] eqn:E.
      * apply list_elem_of_singleton in Hw. subst w. simpl.
        intros [?|H]%elem_of_cons; [congruence | by apply not_elem_of_nil in H].
      * apply elem_of_cons in Hw as [->|Hw].
        -- simpl. intros [?|H]%elem_of_cons; [congruence|].
           revert H. apply IH. left.
        -- apply IH. by right.
Qed.

(** ** [int] *)

Lemma digit_value_range c d : digit_value c = Some d -> 0 <= d <= 9.
Proof.
  unfold digit_value. case_match; [|discriminate].
  intros [= <-]. lia.
Qed.

Lemma int_digits_nonneg l : forall p acc z,
  0 <= acc -> int_digits p acc l = Some z -> 0 <= z.
Proof.
  induction l as [|c l IH]; simpl; intros p acc z Hacc H.
  - destruct p; [discriminate|]. by injection H as <-.
  - destruct (digit_value c) as [d|] eqn:Hd.
    + apply digit_value_range in Hd. eapply IH; [|exact H]. lia.
    + destruct (is_underscore c && negb p); [|discriminate].
      eapply IH; [|exact H]. lia.
Qed.

Lemma int_literal_nonneg l z : int_literal l = Some z -> 0 <= z.
Proof.
  destruct l as [|c l]; simpl; [discriminate|].
  destruct (digit_value c) as [d|] eqn:Hd; [|discriminate].
  apply digit_value_range in Hd. apply int_digits_nonneg. lia.
Qed.

Lemma lstrip_subseteq l : lstrip l ⊆ l.
Proof.
  induction l as [|c l IH]; simpl; [done|].
  destruct (is_space c); [|done]. intros x Hx. right. by apply IH.
Qed.

Lemma strip_subseteq l : strip l ⊆ l.
Proof.
  unfold strip. intros x Hx.
  rewrite list_elem_of_In, <- in_rev, <- list_elem_of_In in Hx.
  apply lstrip_subseteq in Hx.
  rewrite list_elem_of_In, <- in_rev, <- list_elem_of_In in Hx.
  by apply lstrip_subseteq in Hx.
Qed.

(** A string without a minus sign is never read as a negative number. *)
Lemma py_int_nonneg s z :
  "-"%char ∉ list_ascii_of_string s -> py_int s = Ok z -> 0 <= z.
Proof.
  intros Hs. unfold py_int.
  pose proof (strip_subseteq (list_ascii_of_string s)) as Hsub.
  destruct (strip (list_ascii_of_string s)) as [|c l]; [discriminate|].
  destruct (Ascii.eqb_spec c "-"%char) as [->|_].
  { exfalso. apply Hs, Hsub. left. }
  assert (forall (o : option Z) (n : nat),
            (forall v, o = Some v -> 0 <= v) ->
            match o with
            | Some z0 =>
                if (max_str_digits <? n)%nat then Raise ValueError else Ok z0
            | None => Raise ValueError
            end = Ok z ->
            0 <= z) as Hfin.
  { intros [v|] n Hv; [|discriminate].
    destruct (max_str_digits <? n)%nat; [discriminate|].
    intros [= <-]. by apply Hv. }
  destruct (Ascii.eqb c "+"%char); apply Hfin; apply int_literal_nonneg.
Qed.

Lemma py_int_Raise s e : py_int s = Raise e -> e = ValueError.
Proof. unfold py_int. repeat case_match; congruence. Qed.

Lemma py_map_py_int_Raise l e :
  py_map py_int l = Raise e ->
  e = ValueError /\ exists w, w ∈ l /\ py_int w = Raise ValueError.
Proof.
  induction l as [|w l IH]; simpl; [discriminate|].
  destruct (py_int w) as [z|e'] eqn:Hw; simpl.
  - destruct (py_map py_int l) as [zs|e''] eqn:Hl; simpl; [discriminate|].
    intros [= <-]. destruct (IH eq_refl) as [-> (w' & Hin & Hw')].
    split; [done|]. exists w'. split; [by right | done].
  - intros [= <-]. pose proof (py_int_Raise _ _ Hw) as ->.
    split; [done|]. exists w. split; [left | done].
Qed.

Lemma py_map_py_int_fails l w :
  w ∈ l -> py_int w = Raise ValueError -> py_map py_int l = Raise ValueError.
Proof.
  induction l as [|w0 l IH]; intros Hin Hw.
  - by apply not_elem_of_nil in Hin.
  - simpl. apply elem_of_cons in Hin as [<-|Hin].
    + by rewrite Hw.
    + destruct (py_int w0) as [z|e] eqn:Hw0; simpl.
      * by rewrite (IH Hin Hw).
      * by rewrite (py_int_Raise _ _ Hw0).
Qed.

(** ** [Transaction.timing2id] *)

Lemma timing2id_components timing Y MD S :
  timing_components timing Y MD S ->
  Transaction.timing2id timing = Ok (Y * 10 ^ 6 + MD * 10 ^ 2 + S).
Proof.
  intros (a & b & c & Hsplit & Ha & Hb & Hc).
  unfold Transaction.timing2id. rewrite Hsplit. simpl.
  by rewrite Ha, Hb, Hc.
Qed.

Lemma timing2id_Ok_inv timing i :
  Transaction.timing2id timing = Ok i ->
  exists Y MD S,
    timing_components timing Y MD S /\ i = Y * 10 ^ 6 + MD * 10 ^ 2 + S.
Proof.
  unfold Transaction.timing2id, timing_components.
  destruct (py_split "-" timing) as [|a [|b [|c [|d l]]]]; try discriminate.
  simpl.
  destruct (py_int a) as [Y|] eqn:Ha; [|discriminate].
  destruct (py_int b) as [MD|] eqn:Hb; [|discriminate].
  destruct (py_int c) as [S|] eqn:Hc; [|discriminate].
  simpl. intros [= <-]. exists Y, MD, S. split; [|done]. by exists a, b, c.
Qed.

Lemma timing2id_wrong_count timing :
  length (py_split "-" timing) <> 3%nat ->
  Transaction.timing2id timing = Raise (AssertionError None).
Proof.
  intros Hlen. unfold Transaction.timing2id.
  destruct (Nat.eqb_spec (length (py_split "-" timing)) 3); [done|].
  reflexivity.
Qed.

Lemma timing2id_not_int timing w :
  length (py_split "-" timing) = 3%nat ->
  w ∈ py_split "-" timing -> py_int w = Raise ValueError ->
  Transaction.timing2id timing = Raise ValueError.
Proof.
  intros Hlen Hin Hw. unfold Transaction.timing2id.
  rewrite Hlen. simpl. by rewrite (py_map_py_int_fails _ _ Hin Hw).
Qed.

(** Every component of a timing is read as a natural number: a minus sign
    cannot survive the split on ["-"]. *)
Lemma timing_components_nonneg timing Y MD S :
  timing_components timing Y MD S -> 0 <= Y /\ 0 <= MD /\ 0 <= S.
Proof.
  intros (a & b & c & Hsplit & Ha & Hb & Hc).
  assert (forall w, w ∈ [a; b; c] -> "-"%char ∉ list_ascii_of_string w) as Hno.
  { intros w Hw. rewrite <- Hsplit in Hw. by apply py_split_no_sep in Hw. }
  repeat split; eapply py_int_nonneg; eauto; apply Hno; set_solver.
Qed.

(** The encoding on triples: injective and increasing when the second
    component stays below [10^4] and the third below [10^2]. *)
Lemma encoding_lt Y1 MD1 S1 Y2 MD2 S2 :
  0 <= MD1 < 10 ^ 4 -> 0 <= S1 < 10 ^ 2 ->
  0 <= MD2 < 10 ^ 4 -> 0 <= S2 < 10 ^ 2 ->
  lex_lt (Y1, MD1, S1) (Y2, MD2, S2) ->
  Y1 * 10 ^ 6 + MD1 * 10 ^ 2 + S1 < Y2 * 10 ^ 6 + MD2 * 10 ^ 2 + S2.
Proof.
  change (10 ^ 6) with 1000000. change (10 ^ 4) with 10000.
  change (10 ^ 2) with 100. unfold lex_lt. lia.
Qed.

Lemma encoding_inj Y1 MD1 S1 Y2 MD2 S2 :
  0 <= MD1 < 10 ^ 4 -> 0 <= S1 < 10 ^ 2 ->
  0 <= MD2 < 10 ^ 4 -> 0 <= S2 < 10 ^ 2 ->
  Y1 * 10 ^ 6 + MD1 * 10 ^ 2 + S1 = Y2 * 10 ^ 6 + MD2 * 10 ^ 2 + S2 ->
  (Y1, MD1, S1) = (Y2, MD2, S2).
Proof.
  change (10 ^ 6) with 1000000. change (10 ^ 4) with 10000.
  change (10 ^ 2) with 100. intros ? ? ? ? Heq.
  assert (Y1 = Y2) by lia. assert (MD1 = MD2) by lia.
  assert (S1 = S2) by lia. congruence.
Qed.

(** C3 (amended). For a timing whose three dash-separated components are
    read by [int] as [Y], [MD] and [S], [timing2id] returns
    [Y * 10^6 + MD * 10^2 + S]; and among timings with [MD < 10^4] and
    [S < 10^2] the identifier determines the triple of numbers
    [(Y, MD, S)] (injectivity on the triples, not on the strings) and
    grows strictly with the lexicographic order of the triples (strict
    monotonicity). *)
Theorem timing2id_encoding (t1 : string) (Y1 MD1 S1 : Z) :
  timing_components t1 Y1 MD1 S1 ->
  Transaction.timing2id t1 = Ok (Y1 * 10 ^ 6 + MD1 * 10 ^ 2 + S1) /\
  forall (t2 : string) (Y2 MD2 S2 : Z),
    timing_components t2 Y2 MD2 S2 ->
    MD1 < 10 ^ 4 -> S1 < 10 ^ 2 -> MD2 < 10 ^ 4 -> S2 < 10 ^ 2 ->
    (Transaction.timing2id t1 = Transaction.timing2id t2 ->
     (Y1, MD1, S1) = (Y2, MD2, S2)) /\
    (lex_lt (Y1, MD1, S1) (Y2, MD2, S2) ->
     exists i1 i2,
       Transaction.timing2id t1 = Ok i1 /\
       Transaction.timing2id t2 = Ok i2 /\ i1 < i2).
Proof.
  intros H1.
  pose proof (timing_components_nonneg _ _ _ _ H1) as (_ & ? & ?).
  rewrite (timing2id_components _ _ _ _ H1).
  split; [reflexivity|]. intros t2 Y2 MD2 S2 H2 ? ? ? ?.
  pose proof (timing_components_nonneg _ _ _ _ H2) as (_ & ? & ?).
  rewrite (timing2id_components _ _ _ _ H2). split.
  - intros [= Heq]. apply encoding_inj; auto.
  - intros Hlt. eexists _, _. repeat split. apply encoding_lt; auto.
Qed.

Lemma timing2id_encoding_witness :
  Transaction.timing2id "2024-0205-10" = Ok 2024020510 /\
  exists i1 i2,
    Transaction.timing2id "2024-0205-10" = Ok i1 /\
    Transaction.timing2id "2024-0312-14" = Ok i2 /\ i1 < i2.
Proof.
  assert (timing_components "2024-0205-10" 2024 205 10) as H1.
  { exists "2024"%string, "0205"%string, "10"%string. repeat split. }
  assert (timing_components "2024-0312-14" 2024 312 14) as H2.
  { exists "2024"%string, "0312"%string, "14"%string. repeat split. }
  destruct (timing2id_encoding _ _ _ _ H1) as [Hid Hrest].
  split; [exact Hid|].
  apply (Hrest _ _ _ _ H2); [reflexivity..|].
  right. split; [reflexivity|]. left. reflexivity.
Defined.

(** C3, as stated, fails: the function is not injective on the strings,
    also when the second component is written with four digits and the
    third with two. The timings ["2024-0205-10"] and ["02024-0205-10"] are
    different, both have the components 2024, 205 and 10 and the pieces
    ["0205"] and ["10"], and both have the identifier 2024020510; so have
    the spellings with a space, a plus sign or an underscore in the
    year. *)
Lemma timing2id_string_counterexample :
  "2024-0205-10"%string <> "02024-0205-10"%string /\
  py_split "-" "2024-0205-10" = ["2024"; "0205"; "10"]%string /\
  py_split "-" "02024-0205-10" = ["02024"; "0205"; "10"]%string /\
  timing_components "2024-0205-10" 2024 205 10 /\
  timing_components "02024-0205-10" 2024 205 10 /\
  205 < 10 ^ 4 /\ 10 < 10 ^ 2 /\
  Transaction.timing2id "2024-0205-10" = Ok 2024020510 /\
  Transaction.timing2id "02024-0205-10" = Ok 2024020510 /\
  Transaction.timing2id " 2024-0205-10" = Ok 2024020510 /\
  Transaction.timing2id "+2024-0205-10" = Ok 2024020510 /\
  Transaction.timing2id "2_024-0205-10" = Ok 2024020510.
Proof.
  split; [discriminate|]. do 2 (split; [reflexivity|]).
  split; [exists "2024"%string, "0205"%string, "10"%string; by repeat split|].
  split; [exists "02024"%string, "0205"%string, "10"%string; by repeat split|].
  repeat split.
Qed.

(** ** Construction *)

Lemma Transaction_init_eq stock timing price quantity :
  Transaction.init stock timing price quantity =
  match Transaction.timing2id timing with
  | Ok i => Ok {| Transaction.stock := stock; Transaction.timing := timing;
                  Transaction.id := i; Transaction.price := price;
                  Transaction.quantity := quantity |}
  | Raise e => Raise e
  end.
Proof. unfold Transaction.init. by destruct (Transaction.timing2id timing). Qed.

Lemma BuyTransaction_init_eq stock timing price quantity :
  BuyTransaction.init stock timing price quantity =
  match Transaction.init stock timing price quantity with
  | Ok s => Ok {| BuyTransaction.super := s; BuyTransaction.empty := false;
                  BuyTransaction.sells := [] |}
  | Raise e => Raise e
  end.
Proof.
  unfold BuyTransaction.init.
  by destruct (Transaction.init stock timing price quantity).
Qed.

Lemma SellTransaction_init_eq stock timing price quantity :
  SellTransaction.init stock timing price quantity =
  match Transaction.init stock timing price quantity with
  | Ok s => Ok {| SellTransaction.super := s |}
  | Raise e => Raise e
  end.
Proof.
  unfold SellTransaction.init.
  by destruct (Transaction.init stock timing price quantity).
Qed.

(** C8. Constructing a transaction fails when the timing does not split
    into exactly three dash-separated components (the assertion on the
    length raises [AssertionError]) and when one of three components is not
    read by [int] ([ValueError]); these two are the format errors. For a
    timing with three integer components the construction succeeds and
    stores the derived identifier next to the arguments. *)
Theorem Transaction_init_format (stock : StockAttrs.t) (timing : string)
    (price : pynum) (quantity : Z) :
  (length (py_split "-" timing) <> 3%nat ->
   Transaction.init stock timing price quantity = Raise (AssertionError None)) /\
  (length (py_split "-" timing) = 3%nat ->
   (exists w, w ∈ py_split "-" timing /\ py_int w = Raise ValueError) ->
   Transaction.init stock timing price quantity = Raise ValueError) /\
  (forall Y MD S, timing_components timing Y MD S ->
   Transaction.init stock timing price quantity =
   Ok {| Transaction.stock := stock; Transaction.timing := timing;
         Transaction.id := Y * 10 ^ 6 + MD * 10 ^ 2 + S;
         Transaction.price := price; Transaction.quantity := quantity |}).
Proof.
  rewrite Transaction_init_eq. repeat split.
  - intros Hlen. by rewrite (timing2id_wrong_count _ Hlen).
  - intros Hlen (w & Hin & Hw). by rewrite (timing2id_not_int _ _ Hlen Hin Hw).
  - intros Y MD S Hc. by rewrite (timing2id_components _ _ _ _ Hc).
Qed.

Lemma Transaction_init_format_witness :
  Transaction.init (Stock.attrs main_stock) "2024-0205" (PyFloat 25.6) 200
    = Raise (AssertionError None) /\
  Transaction.init (Stock.attrs main_stock) "2024-02x5-10" (PyFloat 25.6) 200
    = Raise ValueError /\
  Transaction.init (Stock.attrs main_stock) "2024-0205-10" (PyFloat 25.6) 200
    = Ok {| Transaction.stock := Stock.attrs main_stock;
            Transaction.timing := "2024-0205-10";
            Transaction.id := 2024020510;
            Transaction.price := PyFloat 25.6;
            Transaction.quantity := 200 |}.
Proof.
  split; [|split].
  - apply (Transaction_init_format (Stock.attrs main_stock) "2024-0205").
    simpl. lia.
  - apply (Transaction_init_format (Stock.attrs main_stock) "2024-02x5-10").
    + reflexivity.
    + exists "02x5"%string. split; [|reflexivity].
      right. left.
  - apply (proj2 (proj2 (Transaction_init_format (Stock.attrs main_stock)
                            "2024-0205-10" (PyFloat 25.6) 200)) 2024 205 10).
    exists "2024"%string, "0205"%string, "10"%string. repeat split.
Defined.

(** A timing is in exactly one of the three cases of the construction. *)
Lemma timing_cases timing :
  length (py_split "-" timing) <> 3%nat \/
  (length (py_split "-" timing) = 3%nat /\
   exists w, w ∈ py_split "-" timing /\ py_int w = Raise ValueError) \/
  (exists Y MD S, timing_components timing Y MD S).
Proof.
  destruct (Transaction.timing2id timing) as [i|e] eqn:Hid.
  - right. right. apply timing2id_Ok_inv in Hid as (Y & MD & S & H & _). eauto.
  - unfold Transaction.timing2id in Hid.
    destruct (Nat.eqb_spec (length (py_split "-" timing)) 3) as [Hlen|Hlen];
      [|by left].
    right. left. split; [done|]. simpl in Hid.
    destruct (py_map py_int (py_split "-" timing)) as [zs|e'] eqn:Hmap;
      [discriminate|].
    by apply py_map_py_int_Raise in Hmap as [_ ?].
Qed.

(** ** [BuyTransaction.quantity_left] and [BuyTransaction.sell] *)

Lemma sold_app l1 l2 : sold (l1 ++ l2) = sold l1 + sold l2.
Proof.
  unfold sold. induction l1 as [|s l1 IH]; simpl; [done|].
  rewrite IH. lia.
Qed.

Lemma sold_snoc l tr : sold (l ++ [tr]) = sold l + SellTransaction.quantity tr.
Proof. rewrite sold_app. unfold sold at 2. simpl. lia. Qed.

Lemma fold_left_sub l : forall delta,
  fold_left (fun delta sell => delta - SellTransaction.quantity sell) l delta
  = delta - sold l.
Proof.
  unfold sold. induction l as [|s l IH]; simpl; intros delta; [lia|].
  rewrite IH. lia.
Qed.

Lemma quantity_left_eq b :
  BuyTransaction.quantity_left b =
  ({| BuyTransaction.super := BuyTransaction.super b;
      BuyTransaction.empty :=
        BuyTransaction.quantity b - sold (BuyTransaction.sells b) =? 0;
      BuyTransaction.sells := BuyTransaction.sells b |},
   BuyTransaction.quantity b - sold (BuyTransaction.sells b)).
Proof. unfold BuyTransaction.quantity_left. by rewrite fold_left_sub. Qed.

(** The whole behaviour of [sell] in one equation: the sell is appended
    whatever the outcome, and the outcome is decided afterwards. *)
Lemma sell_eq b tr :
  BuyTransaction.sell b tr =
  let delta := BuyTransaction.quantity b - sold (BuyTransaction.sells b)
               - SellTransaction.quantity tr in
  ({| BuyTransaction.super := BuyTransaction.super b;
      BuyTransaction.empty := delta =? 0;
      BuyTransaction.sells := BuyTransaction.sells b ++ [tr] |},
   if 0 <=? delta then Ok tt else Raise (AssertionError (Some delta))).
Proof.
  destruct b as [s e l].
  unfold BuyTransaction.sell. rewrite !quantity_left_eq.
  unfold BuyTransaction.quantity. cbn -[sold Z.sub Z.leb Z.eqb].
  rewrite sold_snoc, !Z.sub_add_distr.
  by destruct (0 <=? _).
Qed.

Lemma sell_Ok_inv b tr b' :
  BuyTransaction.sell b tr = (b', Ok tt) ->
  BuyTransaction.super b' = BuyTransaction.super b /\
  BuyTransaction.sells b' = BuyTransaction.sells b ++ [tr] /\
  0 <= snd (BuyTransaction.quantity_left b').
Proof.
  rewrite sell_eq. cbn zeta.
  destruct (Z.leb_spec 0 (BuyTransaction.quantity b
                          - sold (BuyTransaction.sells b)
                          - SellTransaction.quantity tr)) as [Hle|Hlt];
    [|discriminate].
  intros [= <-]. rewrite quantity_left_eq. cbn -[sold].
  rewrite sold_snoc. unfold BuyTransaction.quantity in *. cbn -[sold].
  repeat split. lia.
Qed.

Lemma sells_ok_inv b trs b' :
  sells_ok b trs b' ->
  BuyTransaction.super b' = BuyTransaction.super b /\
  BuyTransaction.sells b' = BuyTransaction.sells b ++ trs /\
  (trs <> [] -> 0 <= snd (BuyTransaction.quantity_left b')).
Proof.
  induction 1 as [b|b tr b1 trs b' Hsell Hrest IH].
  - by rewrite app_nil_r.
  - apply sell_Ok_inv in Hsell as (Hsuper & Hsells & Hpos).
    destruct IH as (IHsuper & IHsells & IHpos).
    split; [congruence|]. split.
    + rewrite IHsells, Hsells, <- app_assoc. reflexivity.
    + intros _. destruct trs as [|tr' trs]; [|by apply IHpos].
      inversion Hrest; by subst.
Qed.

(** C1 (amended). After any sequence of successful [sell] calls on a buy,
    [quantity_left] is the buy's quantity minus the sum of the quantities
    of the attached sells (those present before, followed by the new ones
    in order), and this value is not negative provided the sequence is not
    empty or the value was not negative before the sequence. *)
Theorem quantity_left_after_sells (b : BuyTransaction.t)
    (trs : list SellTransaction.t) (b' : BuyTransaction.t) :
  sells_ok b trs b' ->
  BuyTransaction.quantity b' = BuyTransaction.quantity b /\
  BuyTransaction.sells b' = BuyTransaction.sells b ++ trs /\
  snd (BuyTransaction.quantity_left b') =
    BuyTransaction.quantity b' - sold (BuyTransaction.sells b') /\
  (trs <> [] \/ 0 <= snd (BuyTransaction.quantity_left b) ->
   0 <= snd (BuyTransaction.quantity_left b')).
Proof.
  intros Hok. pose proof (sells_ok_inv _ _ _ Hok) as (Hsuper & Hsells & Hpos).
  split; [unfold BuyTransaction.quantity; congruence|].
  split; [done|]. split; [by rewrite quantity_left_eq|].
  intros [Hne|Hb]; [by apply Hpos|].
  destruct trs as [|tr trs]; [|by apply Hpos].
  inversion Hok; by subst.
Qed.

Lemma main_buy_init quantity :
  BuyTransaction.init (Stock.attrs main_stock) "2024-0205-10" (PyFloat 25.6)
                      quantity = Ok (main_buy quantity).
Proof. reflexivity. Qed.

Lemma main_sell_init quantity :
  SellTransaction.init (Stock.attrs main_stock) "2024-0312-14" (PyFloat 36.36)
                       quantity = Ok (main_sell quantity).
Proof. reflexivity. Qed.

Lemma quantity_left_after_sells_witness :
  snd (BuyTransaction.quantity_left
         (fst (BuyTransaction.sell (main_buy 200) (main_sell 200)))) =
    BuyTransaction.quantity
      (fst (BuyTransaction.sell (main_buy 200) (main_sell 200)))
    - sold (BuyTransaction.sells
              (fst (BuyTransaction.sell (main_buy 200) (main_sell 200)))) /\
  0 <= snd (BuyTransaction.quantity_left
              (fst (BuyTransaction.sell (main_buy 200) (main_sell 200)))).
Proof.
  assert (sells_ok (main_buy 200) [main_sell 200]
            (fst (BuyTransaction.sell (main_buy 200) (main_sell 200)))) as Hok.
  { eapply sells_ok_cons; [reflexivity | apply sells_ok_nil]. }
  destruct (quantity_left_after_sells _ _ _ Hok) as (_ & _ & Heq & Hpos).
  split; [exact Heq|]. apply Hpos. left. discriminate.
Defined.

(** C1, as stated, fails on a buy constructed with a negative quantity to
    which no sell has been attached: [quantity_left] is that quantity. *)
Lemma quantity_left_negative_counterexample :
  BuyTransaction.init (Stock.attrs main_stock) "2024-0205-10" (PyFloat 25.6)
                      (-5) = Ok (main_buy (-5)) /\
  sells_ok (main_buy (-5)) [] (main_buy (-5)) /\
  snd (BuyTransaction.quantity_left (main_buy (-5))) = -5 /\
  snd (BuyTransaction.quantity_left (main_buy (-5))) < 0.
Proof. repeat split. apply sells_ok_nil. Qed.

(** C2 (amended). A sell whose quantity is strictly greater than the buy's
    current [quantity_left] makes [sell] fail with an [AssertionError]
    carrying the negative remainder, the quantity error; the sell has been
    appended to the end of the buy's sell list before the check and is
    still there after the error, and [empty] has been set to false. *)
Theorem sell_exceeding (b : BuyTransaction.t) (tr : SellTransaction.t) :
  snd (BuyTransaction.quantity_left b) < SellTransaction.quantity tr ->
  exists b',
    BuyTransaction.sell b tr =
      (b', Raise (AssertionError
                    (Some (snd (BuyTransaction.quantity_left b)
                           - SellTransaction.quantity tr)))) /\
    BuyTransaction.super b' = BuyTransaction.super b /\
    BuyTransaction.sells b' = BuyTransaction.sells b ++ [tr] /\
    BuyTransaction.empty b' = false.
Proof.
  rewrite quantity_left_eq, sell_eq. cbn [snd]. cbv zeta. intros Hlt.
  destruct (Z.leb_spec 0 (BuyTransaction.quantity b
                          - sold (BuyTransaction.sells b)
                          - SellTransaction.quantity tr)) as [Hle|_]; [lia|].
  eexists. split; [reflexivity|]. cbn -[sold Z.sub]. repeat split.
  apply Z.eqb_neq. lia.
Qed.

Lemma sell_exceeding_witness :
  exists b',
    BuyTransaction.sell (main_buy 200) (main_sell 201) =
      (b', Raise (AssertionError
                    (Some (snd (BuyTransaction.quantity_left (main_buy 200))
                           - SellTransaction.quantity (main_sell 201))))) /\
    BuyTransaction.super b' = BuyTransaction.super (main_buy 200) /\
    BuyTransaction.sells b' =
      BuyTransaction.sells (main_buy 200) ++ [main_sell 201] /\
    BuyTransaction.empty b' = false.
Proof. apply (sell_exceeding (main_buy 200) (main_sell 201)). reflexivity. Defined.

(** C2, as stated, fails: after the failed call on a buy of 200 with a sell
    of 201 the sell list holds the failed sell and differs from the list
    before the call. *)
Lemma sell_exceeding_counterexample :
  snd (BuyTransaction.quantity_left (main_buy 200))
    < SellTransaction.quantity (main_sell 201) /\
  snd (BuyTransaction.sell (main_buy 200) (main_sell 201))
    = Raise (AssertionError (Some (-1))) /\
  BuyTransaction.sells (fst (BuyTransaction.sell (main_buy 200) (main_sell 201)))
    = [main_sell 201] /\
  BuyTransaction.sells (fst (BuyTransaction.sell (main_buy 200) (main_sell 201)))
    <> BuyTransaction.sells (main_buy 200).
Proof. repeat split. discriminate. Qed.

(** C10 (amended). [sell] does not look at the sign of the sell's
    quantity: on a buy whose [quantity_left] is not negative, a sell of
    zero or negative quantity is attached without error; after a sell of
    negative quantity, [quantity_left] is strictly greater than before the
    call; it is strictly greater than the buy's own quantity exactly when
    the quantities of the attached sells, the new one included, sum to a
    negative number, as they do when it is the first sell attached. *)
Theorem sell_nonpositive_accepted (b : BuyTransaction.t)
    (tr : SellTransaction.t) :
  0 <= snd (BuyTransaction.quantity_left b) ->
  SellTransaction.quantity tr <= 0 ->
  exists b',
    BuyTransaction.sell b tr = (b', Ok tt) /\
    BuyTransaction.sells b' = BuyTransaction.sells b ++ [tr] /\
    snd (BuyTransaction.quantity_left b') =
      snd (BuyTransaction.quantity_left b) - SellTransaction.quantity tr /\
    (BuyTransaction.quantity b < snd (BuyTransaction.quantity_left b') <->
     sold (BuyTransaction.sells b) + SellTransaction.quantity tr < 0) /\
    (SellTransaction.quantity tr < 0 ->
     snd (BuyTransaction.quantity_left b)
       < snd (BuyTransaction.quantity_left b') /\
     (BuyTransaction.sells b = [] ->
      BuyTransaction.quantity b < snd (BuyTransaction.quantity_left b'))).
Proof.
  rewrite sell_eq, (quantity_left_eq b). cbn [snd]. cbv zeta. intros Hb Htr.
  destruct (Z.leb_spec 0 (BuyTransaction.quantity b
                          - sold (BuyTransaction.sells b)
                          - SellTransaction.quantity tr)) as [_|Hlt]; [|lia].
  eexists. split; [reflexivity|]. rewrite !quantity_left_eq.
  unfold BuyTransaction.quantity in *. cbn -[sold Z.sub]. rewrite sold_snoc.
  split; [done|]. split; [lia|]. split; [lia|]. intros Hneg. split; [lia|].
  intros ->. unfold sold. simpl. lia.
Qed.

Lemma sell_nonpositive_accepted_witness :
  exists b',
    BuyTransaction.sell (main_buy 200) (main_sell (-50)) = (b', Ok tt) /\
    BuyTransaction.sells b' = [main_sell (-50)] /\
    snd (BuyTransaction.quantity_left b') = 250 /\
    BuyTransaction.quantity (main_buy 200)
      < snd (BuyTransaction.quantity_left b').
Proof.
  destruct (sell_nonpositive_accepted (main_buy 200) (main_sell (-50)))
    as (b' & Hsell & Hsells & Hleft & _ & Hneg);
    [vm_compute; discriminate | vm_compute; discriminate |].
  exists b'. split; [exact Hsell|]. split; [exact Hsells|].
  split; [exact Hleft|]. apply Hneg; reflexivity.
Defined.

(** C10, as stated, fails in both parts when the buy is not a new one with
    a quantity that is not negative. A sell of quantity 0 on a buy
    constructed with quantity -5 raises [AssertionError(-5)]; and on a buy
    of 200 to which a sell of 150 is attached, a sell of quantity -10 is
    accepted and leaves [quantity_left] at 60, below the buy's 200. *)
Lemma sell_nonpositive_counterexample :
  SellTransaction.quantity (main_sell 0) <= 0 /\
  BuyTransaction.sell (main_buy (-5)) (main_sell 0)
    = ({| BuyTransaction.super := BuyTransaction.super (main_buy (-5));
          BuyTransaction.empty := false;
          BuyTransaction.sells := [main_sell 0] |},
       Raise (AssertionError (Some (-5)))) /\
  snd (BuyTransaction.sell (main_buy 200) (main_sell 150)) = Ok tt /\
  SellTransaction.quantity (main_sell (-10)) < 0 /\
  snd (BuyTransaction.sell
         (fst (BuyTransaction.sell (main_buy 200) (main_sell 150)))
         (main_sell (-10))) = Ok tt /\
  snd (BuyTransaction.quantity_left
         (fst (BuyTransaction.sell
                 (fst (BuyTransaction.sell (main_buy 200) (main_sell 150)))
                 (main_sell (-10))))) = 60 /\
  60 < BuyTransaction.quantity (main_buy 200).
Proof. repeat split; discriminate. Qed.

(** ** [Stock.buy] and [Stock.sell] *)

Lemma BuyTransaction_init_Ok stock timing price quantity key :
  Transaction.timing2id timing = Ok key ->
  BuyTransaction.init stock timing price quantity =
  Ok {| BuyTransaction.super :=
          {| Transaction.stock := stock; Transaction.timing := timing;
             Transaction.id := key; Transaction.price := price;
             Transaction.quantity := quantity |};
        BuyTransaction.empty := false;
        BuyTransaction.sells := [] |}.
Proof.
  intros Hid. by rewrite BuyTransaction_init_eq, Transaction_init_eq, Hid.
Qed.

(** C5 (amended). [Stock.buy] with a timing whose identifier is already a
    key of the buy mapping does not fail: it returns normally, and the
    entry under that key is replaced by the newly constructed buy, whose
    sell list is empty. *)
Theorem buy_overwrites (self : Stock.t) (timing : string) (price : pynum)
    (quantity : Z) (key : Z) (old : BuyTransaction.t) :
  Transaction.timing2id timing = Ok key ->
  Stock._tr_recorder self !! key = Some old ->
  exists tr,
    BuyTransaction.init (Stock.attrs self) timing price quantity = Ok tr /\
    BuyTransaction.sells tr = [] /\
    Stock.buy self timing price quantity =
      ({| Stock.attrs := Stock.attrs self;
          Stock._tr_recorder := <[key := tr]> (Stock._tr_recorder self) |},
       Ok tt) /\
    Stock._tr_recorder (fst (Stock.buy self timing price quantity)) !! key
      = Some tr.
Proof.
  intros Hid _. unfold Stock.buy.
  rewrite (BuyTransaction_init_Ok _ _ _ _ _ Hid). cbn.
  eexists. split; [reflexivity|]. split; [reflexivity|].
  split; [reflexivity|]. apply lookup_insert_eq.
Qed.

Lemma buy_overwrites_witness :
  exists tr,
    BuyTransaction.init (Stock.attrs (fst main_after_sell)) "2024-0205-10"
                        (PyFloat 27.85) 100 = Ok tr /\
    BuyTransaction.sells tr = [] /\
    Stock.buy (fst main_after_sell) "2024-0205-10" (PyFloat 27.85) 100 =
      ({| Stock.attrs := Stock.attrs (fst main_after_sell);
          Stock._tr_recorder :=
            <[2024020510 := tr]> (Stock._tr_recorder (fst main_after_sell)) |},
       Ok tt) /\
    Stock._tr_recorder
      (fst (Stock.buy (fst main_after_sell) "2024-0205-10" (PyFloat 27.85) 100))
      !! 2024020510 = Some tr.
Proof.
  apply (buy_overwrites (fst main_after_sell) "2024-0205-10" (PyFloat 27.85)
           100 2024020510
           (fst (BuyTransaction.sell (main_buy 200) (main_sell 200)))).
  - reflexivity.
  - vm_compute. reflexivity.
Defined.

(** C5, as stated, fails: in the scenario, a second buy under the timing of
    the first one returns normally, and the entry (which held one sell) is
    replaced by the new buy without sells. *)
Lemma buy_duplicate_counterexample :
  Transaction.timing2id "2024-0205-10" = Ok 2024020510 /\
  Stock._tr_recorder (fst main_after_sell) !! 2024020510
    = Some (fst (BuyTransaction.sell (main_buy 200) (main_sell 200))) /\
  snd (Stock.buy (fst main_after_sell) "2024-0205-10" (PyFloat 25.6) 200)
    = Ok tt /\
  Stock._tr_recorder
    (fst (Stock.buy (fst main_after_sell) "2024-0205-10" (PyFloat 25.6) 200))
    !! 2024020510 = Some (main_buy 200).
Proof. repeat split; by_evaluation. Qed.

Lemma Stock_sell_found self buy_timing timing price quantity tr key trans_buy :
  SellTransaction.init (Stock.attrs self) timing price quantity = Ok tr ->
  Transaction.timing2id buy_timing = Ok key ->
  Stock._tr_recorder self !! key = Some trans_buy ->
  Stock.sell self buy_timing timing price quantity =
    ({| Stock.attrs := Stock.attrs self;
        Stock._tr_recorder :=
          <[key := fst (BuyTransaction.sell trans_buy tr)]>
            (Stock._tr_recorder self) |},
     snd (BuyTransaction.sell trans_buy tr)).
Proof.
  intros Htr Hkey Hbuy. unfold Stock.sell. rewrite Htr, Hkey, Hbuy.
  by destruct (BuyTransaction.sell trans_buy tr).
Qed.

Lemma Stock_sell_missing self buy_timing timing price quantity tr key :
  SellTransaction.init (Stock.attrs self) timing price quantity = Ok tr ->
  Transaction.timing2id buy_timing = Ok key ->
  Stock._tr_recorder self !! key = None ->
  Stock.sell self buy_timing timing price quantity
    = (self, Raise (KeyError key)).
Proof. intros Htr Hkey Hbuy. unfold Stock.sell. by rewrite Htr, Hkey, Hbuy. Qed.

(** C6 (amended). [Stock.sell] first constructs the sell from its own
    timing, and an error of that construction is the outcome whatever the
    ledger holds; then it computes the buy identifier from [buy_timing]
    (an error there is the outcome); if no buy is recorded under that
    identifier it fails with a [KeyError], the not-found error, and the
    stock is unchanged; otherwise it delegates to [sell] of that buy, stores
    the buy's new state under the same key and has the outcome of that
    call. *)
Theorem Stock_sell_behaviour (self : Stock.t) (buy_timing timing : string)
    (price : pynum) (quantity : Z) :
  (forall e,
     SellTransaction.init (Stock.attrs self) timing price quantity = Raise e ->
     Stock.sell self buy_timing timing price quantity = (self, Raise e)) /\
  (forall tr,
     SellTransaction.init (Stock.attrs self) timing price quantity = Ok tr ->
     (forall e,
        Transaction.timing2id buy_timing = Raise e ->
        Stock.sell self buy_timing timing price quantity = (self, Raise e)) /\
     (forall key,
        Transaction.timing2id buy_timing = Ok key ->
        (Stock._tr_recorder self !! key = None ->
         Stock.sell self buy_timing timing price quantity
           = (self, Raise (KeyError key))) /\
        (forall trans_buy,
           Stock._tr_recorder self !! key = Some trans_buy ->
           Stock.sell self buy_timing timing price quantity =
             ({| Stock.attrs := Stock.attrs self;
                 Stock._tr_recorder :=
                   <[key := fst (BuyTransaction.sell trans_buy tr)]>
                     (Stock._tr_recorder self) |},
              snd (BuyTransaction.sell trans_buy tr))))).
Proof.
  split.
  - unfold Stock.sell. by intros e ->.
  - intros tr Htr. split.
    + unfold Stock.sell. rewrite Htr. by intros e ->.
    + intros key Hkey. split.
      * by apply (Stock_sell_missing _ _ _ _ _ tr).
      * intros trans_buy. by apply Stock_sell_found.
Qed.

Lemma Stock_sell_behaviour_witness :
  Stock.sell main_stock "2024-0205-10" "2024-0312-14" (PyFloat 36.36) 200
    = (main_stock, Raise (KeyError 2024020510)) /\
  Stock.sell (fst main_after_buy) "2024-0205-10" "2024-0312-14"
             (PyFloat 36.36) 200
    = ({| Stock.attrs := Stock.attrs (fst main_after_buy);
          Stock._tr_recorder :=
            <[2024020510 :=
                fst (BuyTransaction.sell (main_buy 200) (main_sell 200))]>
              (Stock._tr_recorder (fst main_after_buy)) |},
       snd (BuyTransaction.sell (main_buy 200) (main_sell 200))).
Proof.
  split.
  - apply (proj2 (Stock_sell_behaviour main_stock "2024-0205-10"
                    "2024-0312-14" (PyFloat 36.36) 200)
             (main_sell 200) eq_refl).
    + reflexivity.
    + vm_compute. reflexivity.
  - apply (proj2 (Stock_sell_behaviour (fst main_after_buy) "2024-0205-10"
                    "2024-0312-14" (PyFloat 36.36) 200)
             (main_sell 200) eq_refl).
    + reflexivity.
    + vm_compute. reflexivity.
Defined.

(** C6, as stated, fails: with a malformed timing for the sell itself, no
    buy recorded under the identifier of [buy_timing] and a well-formed
    [buy_timing], the error is that of the construction of the sell, not
    the not-found error. *)
Lemma Stock_sell_counterexample :
  Transaction.timing2id "2024-0205-10" = Ok 2024020510 /\
  Stock._tr_recorder main_stock !! 2024020510 = None /\
  Stock.sell main_stock "2024-0205-10" "2024-0312" (PyFloat 36.36) 200
    = (main_stock, Raise (AssertionError None)) /\
  Stock.sell main_stock "2024-0205-10" "2024-0312" (PyFloat 36.36) 200
    <> (main_stock, Raise (KeyError 2024020510)).
Proof. repeat split; try by_evaluation. discriminate. Qed.

(** C9. Two distinct well-formed timings have the same identifier, and a
    buy recorded under one is the entry a sell referencing the other is
    attached to. *)
Theorem timing2id_collision :
  "2024-0205-10"%string <> "2024-205-10"%string /\
  Transaction.timing2id "2024-0205-10" = Ok 2024020510 /\
  Transaction.timing2id "2024-205-10" = Ok 2024020510 /\
  forall (self : Stock.t) (price : pynum) (quantity : Z)
         (sell_price : pynum) (sell_quantity : Z),
    exists (b : BuyTransaction.t) (tr : SellTransaction.t),
      BuyTransaction.init (Stock.attrs self) "2024-0205-10" price quantity
        = Ok b /\
      SellTransaction.init (Stock.attrs self) "2024-0312-14" sell_price
                           sell_quantity = Ok tr /\
      Stock._tr_recorder (fst (Stock.buy self "2024-0205-10" price quantity))
        !! 2024020510 = Some b /\
      Stock.sell (fst (Stock.buy self "2024-0205-10" price quantity))
                 "2024-205-10" "2024-0312-14" sell_price sell_quantity =
        ({| Stock.attrs := Stock.attrs self;
            Stock._tr_recorder :=
              <[2024020510 := fst (BuyTransaction.sell b tr)]>
                (<[2024020510 := b]> (Stock._tr_recorder self)) |},
         snd (BuyTransaction.sell b tr)) /\
      BuyTransaction.sells (fst (BuyTransaction.sell b tr)) = [tr].
Proof.
  split; [discriminate|]. split; [reflexivity|]. split; [reflexivity|].
  intros self price quantity sell_price sell_quantity.
  exists {| BuyTransaction.super :=
             {| Transaction.stock := Stock.attrs self;
                Transaction.timing := "2024-0205-10";
                Transaction.id := 2024020510;
                Transaction.price := price;
                Transaction.quantity := quantity |};
           BuyTransaction.empty := false;
           BuyTransaction.sells := [] |},
         {| SellTransaction.super :=
             {| Transaction.stock := Stock.attrs self;
                Transaction.timing := "2024-0312-14";
                Transaction.id := 2024031214;
                Transaction.price := sell_price;
                Transaction.quantity := sell_quantity |} |}.
  split; [reflexivity|]. split; [reflexivity|].
  assert (Stock.buy self "2024-0205-10" price quantity =
          ({| Stock.attrs := Stock.attrs self;
              Stock._tr_recorder :=
                <[2024020510 :=
                    {| BuyTransaction.super :=
                         {| Transaction.stock := Stock.attrs self;
                            Transaction.timing := "2024-0205-10";
                            Transaction.id := 2024020510;
                            Transaction.price := price;
                            Transaction.quantity := quantity |};
                       BuyTransaction.empty := false;
                       BuyTransaction.sells := [] |}]>
                  (Stock._tr_recorder self) |}, Ok tt)) as Hbuy
    by reflexivity.
  rewrite Hbuy. cbn [fst Stock._tr_recorder].
  split; [apply lookup_insert_eq|]. split.
  - rewrite (Stock_sell_found _ "2024-205-10" "2024-0312-14" sell_price
               sell_quantity _ 2024020510 _ eq_refl eq_refl
               (lookup_insert_eq _ _ _)).
    reflexivity.
  - by rewrite sell_eq.
Qed.

(** ** Rounding to nearest in binary64 *)

(** The operations of [SpecFloat], which specify those of the primitive
    floats, shift a mantissa to the right and round it to nearest, ties
    to even. The error of that step is bounded here, first on the
    integers and then on the reals. *)

Lemma iter_pos_nat {A : Type} (f : A -> A) (p : positive) : forall x,
  SpecFloat.iter_pos f p x = Nat.iter (Pos.to_nat p) f x.
Proof.
  induction p as [p IH|p IH|]; intros x; cbn [SpecFloat.iter_pos].
  - rewrite !IH, Pos2Nat.inj_xI.
    replace (S (2 * Pos.to_nat p))
      with (Pos.to_nat p + S (Pos.to_nat p))%nat by lia.
    rewrite Nat.iter_add. f_equal. rewrite Nat.iter_swap. reflexivity.
  - rewrite !IH, Pos2Nat.inj_xO.
    replace (2 * Pos.to_nat p)%nat
      with (Pos.to_nat p + Pos.to_nat p)%nat by lia.
    rewrite Nat.iter_add. reflexivity.
  - reflexivity.
Qed.

Lemma shr_1_nonneg q r s :
  0 <= q ->
  shr_1 {| shr_m := q; shr_r := r; shr_s := s |} =
  {| shr_m := q / 2; shr_r := Z.odd q; shr_s := r || s |}.
Proof.
  intros Hq. destruct q as [|[p|p|]|p]; try lia; simpl; f_equal.
  - rewrite Pos2Z.inj_xI. apply Z.div_unique with (r := 1); lia.
  - rewrite Pos2Z.inj_xO. apply Z.div_unique with (r := 0); lia.
Qed.

Lemma shifted_step m k mrs :
  0 <= m -> shifted m k mrs -> shifted m (S k) (shr_1 mrs).
Proof.
  intros Hm (Hq & Hr & Hs). destruct mrs as [q r s].
  cbn [shr_m shr_r shr_s] in Hq, Hr, Hs.
  assert (0 < 2 ^ Z.of_nat k) as Hpow by (apply Z.pow_pos_nonneg; lia).
  rewrite shr_1_nonneg by (subst q; apply Z.div_pos; lia).
  unfold shifted. cbn [shr_m shr_r shr_s].
  replace (Z.of_nat (S k) - 1) with (Z.of_nat k) by lia.
  replace (Z.of_nat (S k)) with (Z.succ (Z.of_nat k)) by lia.
  rewrite Z.pow_succ_r by lia. split; [|split].
  - subst q. rewrite Z.div_div by lia. f_equal. lia.
  - subst q. split; [intros H; split; [lia | exact H] | intros [_ H]; exact H].
  - split.
    + intros H. split; [lia|]. apply Bool.orb_prop in H as [H|H].
      * apply Hr in H as [Hk Hodd].
        replace (Z.of_nat k) with (Z.succ (Z.of_nat k - 1)) by lia.
        rewrite Z.pow_succ_r by lia.
        assert (0 < 2 ^ (Z.of_nat k - 1)) as HP
          by (apply Z.pow_pos_nonneg; lia).
        rewrite (Z.mul_comm 2), Z.rem_mul_r by lia.
        rewrite Zmod_odd, Hodd.
        pose proof (Z.mod_pos_bound m (2 ^ (Z.of_nat k - 1)) HP). lia.
      * apply Hs in H as [Hk Hlow].
        replace (Z.of_nat k) with (Z.succ (Z.of_nat k - 1)) by lia.
        rewrite Z.pow_succ_r by lia.
        assert (0 < 2 ^ (Z.of_nat k - 1)) as HP
          by (apply Z.pow_pos_nonneg; lia).
        rewrite (Z.mul_comm 2), Z.rem_mul_r by lia.
        pose proof (Z.mod_pos_bound m (2 ^ (Z.of_nat k - 1)) HP).
        pose proof (Z.mod_pos_bound (m / 2 ^ (Z.of_nat k - 1)) 2). nia.
    + intros [_ Hne]. apply Bool.orb_true_iff.
      destruct k as [|k].
      { simpl in Hne. rewrite Z.mod_1_r in Hne. lia. }
      destruct r; [left; reflexivity|]. right. apply Hs. split; [lia|].
      intros Hlow. apply Hne.
      replace (Z.of_nat (S k)) with (Z.succ (Z.of_nat (S k) - 1)) by lia.
      rewrite Z.pow_succ_r by lia.
      assert (0 < 2 ^ (Z.of_nat (S k) - 1)) as HP
        by (apply Z.pow_pos_nonneg; lia).
      rewrite (Z.mul_comm 2), Z.rem_mul_r by lia.
      rewrite Hlow, Zmod_odd.
      destruct (Z.odd (m / 2 ^ (Z.of_nat (S k) - 1))) eqn:Hodd; [|lia].
      assert (false = true) as Hf by (apply Hr; split; [lia | reflexivity]).
      discriminate.
Qed.

Lemma shifted_iter m k :
  0 <= m ->
  shifted m k (Nat.iter k shr_1 {| shr_m := m; shr_r := false; shr_s := false |}).
Proof.
  intros Hm. induction k as [|k IH].
  - unfold shifted. simpl. rewrite Z.div_1_r. repeat split; try lia;
      try discriminate; intros [? _]; lia.
  - simpl. apply shifted_step; assumption.
Qed.

Lemma digits2_pos_bounds m :
  2 ^ (Z.pos (digits2_pos m) - 1) <= Z.pos m < 2 ^ Z.pos (digits2_pos m).
Proof.
  induction m as [m IH|m IH|]; cbn [digits2_pos].
  - rewrite Pos2Z.inj_succ, (Pos2Z.inj_xI m).
    replace (Z.succ (Z.pos (digits2_pos m)) - 1)
      with (Z.succ (Z.pos (digits2_pos m) - 1)) by lia.
    rewrite !Z.pow_succ_r by lia.
    generalize dependent (2 ^ (Z.pos (digits2_pos m) - 1)).
    generalize (2 ^ Z.pos (digits2_pos m)). intros; lia.
  - rewrite Pos2Z.inj_succ, (Pos2Z.inj_xO m).
    replace (Z.succ (Z.pos (digits2_pos m)) - 1)
      with (Z.succ (Z.pos (digits2_pos m) - 1)) by lia.
    rewrite !Z.pow_succ_r by lia.
    generalize dependent (2 ^ (Z.pos (digits2_pos m) - 1)).
    generalize (2 ^ Z.pos (digits2_pos m)). intros; lia.
  - vm_compute. split; [discriminate | reflexivity].
Qed.

(** Rounding to nearest, ties to even, after [k > 0] shifts: the result is
    the quotient or its successor and lies within half a unit of [m]. *)
Lemma round_nearest_even_shifted m k mrs :
  0 <= m -> (0 < k)%nat -> shifted m k mrs ->
  let m1 := round_nearest_even (shr_m mrs) (loc_of_shr_record mrs) in
  m / 2 ^ Z.of_nat k <= m1 <= m / 2 ^ Z.of_nat k + 1 /\
  2 * Z.abs (m1 * 2 ^ Z.of_nat k - m) <= 2 ^ Z.of_nat k.
Proof.
  intros Hm Hk (Hq & Hr & Hs). destruct mrs as [q r s].
  cbn [shr_m shr_r shr_s] in *. subst q.
  set (h := 2 ^ (Z.of_nat k - 1)) in *.
  assert (0 < h) as Hh by (apply Z.pow_pos_nonneg; lia).
  assert (2 ^ Z.of_nat k = h * 2) as Hpow.
  { replace (Z.of_nat k) with (Z.succ (Z.of_nat k - 1)) by lia.
    rewrite Z.pow_succ_r by lia. unfold h. lia. }
  rewrite Hpow. rewrite <- Z.div_div by lia.
  pose proof (Z.div_mod m h ltac:(lia)) as Hdm.
  pose proof (Z.mod_pos_bound m h Hh) as Hlow.
  pose proof (Z.div_mod (m / h) 2 ltac:(lia)) as Hdb.
  rewrite Zmod_odd in Hdb.
  assert (0 <= m / h) as Hmh by (apply Z.div_pos; lia).
  assert (0 <= m / h / 2) as Hq by (apply Z.div_pos; lia).
  set (q := m / h / 2) in *. set (low := m mod h) in *.
  destruct (Z.odd (m / h)) eqn:Hodd.
  - assert (r = true) as -> by (apply Hr; split; [lia | reflexivity]).
    destruct s; cbn [loc_of_shr_record round_nearest_even].
    + split; [lia|].
      assert (low <> 0) as Hne by (apply Hs; reflexivity). nia.
    + assert (low = 0) as Hz.
      { destruct (Z.eq_dec low 0) as [|Hne]; [assumption|].
        assert (false = true) as Hf by (apply Hs; split; [lia | exact Hne]).
        discriminate. }
      destruct (Z.even q); split; nia.
  - assert (r = false) as ->.
    { destruct r; [|reflexivity]. assert (false = true) as Hf by (apply Hr; reflexivity).
      discriminate. }
    destruct s; cbn [loc_of_shr_record round_nearest_even]; split; nia.
Qed.

Lemma digits2_pos_le m n : 0 <= n -> Z.pos m < 2 ^ n -> Z.pos (digits2_pos m) <= n.
Proof.
  intros Hn Hm. pose proof (digits2_pos_bounds m) as [Hlo _].
  assert (2 ^ (Z.pos (digits2_pos m) - 1) < 2 ^ n) as Hlt by lia.
  apply Z.pow_lt_mono_r_iff in Hlt; lia.
Qed.

Lemma digits2_pos_gt m n : 0 <= n -> 2 ^ n <= Z.pos m -> n < Z.pos (digits2_pos m).
Proof.
  intros Hn Hm. pose proof (digits2_pos_bounds m) as [_ Hhi].
  assert (2 ^ n < 2 ^ Z.pos (digits2_pos m)) as Hlt by lia.
  apply Z.pow_lt_mono_r_iff in Hlt; lia.
Qed.

Lemma fexp_eq x : fexp prec emax x = Z.max (x - 53) (-1074).
Proof. reflexivity. Qed.

Lemma binary_round_aux_exact sx m e :
  fexp prec emax (Z.pos (digits2_pos m) + e) <= e ->
  binary_round_aux prec emax sx (Z.pos m) e loc_Exact = rounded sx (Z.pos m) e.
Proof.
  intros Hle. unfold binary_round_aux, shr_fexp.
  cbn [Zdigits2 shr_record_of_loc].
  assert (forall mrs, shr mrs e (fexp prec emax (Z.pos (digits2_pos m) + e) - e)
                      = (mrs, e)) as Hshr.
  { intros mrs. unfold shr.
    destruct (fexp prec emax (Z.pos (digits2_pos m) + e) - e) eqn:Hn;
      [reflexivity | lia | reflexivity]. }
  rewrite Hshr. cbn [shr_m loc_of_shr_record round_nearest_even Zdigits2 shr_record_of_loc].
  rewrite Hshr. reflexivity.
Qed.

Lemma binary_round_aux_shift sx m e :
  e < fexp prec emax (Z.pos (digits2_pos m) + e) ->
  exists m1 e1,
    binary_round_aux prec emax sx (Z.pos m) e loc_Exact = rounded sx m1 e1 /\
    0 <= m1 < 2 ^ 53 /\
    2 * Z.abs (m1 * 2 ^ (e1 - e) - Z.pos m)
      <= 2 ^ (fexp prec emax (Z.pos (digits2_pos m) + e) - e) /\
    fexp prec emax (Z.pos (digits2_pos m) + e) <= e1 /\
    fexp prec emax (Zdigits2 m1 + e1) = e1.
Proof.
  intros Hlt. set (d := Z.pos (digits2_pos m)) in *.
  set (e' := fexp prec emax (d + e)) in *.
  pose proof (fexp_eq (d + e)) as He'. fold e' in He'.
  unfold binary_round_aux, shr_fexp.
  cbn [Zdigits2 shr_record_of_loc]. fold d. fold e'.
  destruct (e' - e) as [|p|p] eqn:Hn; try lia.
  unfold shr at 1. rewrite iter_pos_nat.
  set (k := Pos.to_nat p).
  assert (Z.of_nat k = e' - e) as Hk by (unfold k; lia).
  assert (0 < k)%nat as Hkpos by lia.
  pose proof (shifted_iter (Z.pos m) k ltac:(lia)) as Hsh.
  set (mrs := Nat.iter k shr_1 _) in *.
  pose proof (round_nearest_even_shifted (Z.pos m) k mrs ltac:(lia) Hkpos Hsh)
    as [Hq Herr].
  cbv zeta in Hq, Herr.
  set (M := round_nearest_even (shr_m mrs) (loc_of_shr_record mrs)) in *.
  replace (e + Z.pos p) with e' by lia.
  rewrite Hk in Hq, Herr.
  pose proof (digits2_pos_bounds m) as [Hlo Hhi]. fold d in Hlo, Hhi.
  assert (0 < 2 ^ (e' - e)) as Hpow by (apply Z.pow_pos_nonneg; lia).
  assert (0 <= Z.pos m / 2 ^ (e' - e)) as Hq0 by (apply Z.div_pos; lia).
  assert (Z.pos m / 2 ^ (e' - e) < 2 ^ 53) as Hq53.
  { apply Z.div_lt_upper_bound; [lia|].
    rewrite <- Z.pow_add_r by lia.
    eapply Z.lt_le_trans; [exact Hhi|].
    apply Z.pow_le_mono_r; lia. }
  assert (e' = d + e - 53 -> 2 ^ 52 <= Z.pos m / 2 ^ (e' - e)) as Hq52.
  { intros Heq. apply Z.div_le_lower_bound; [lia|].
    rewrite <- Z.pow_add_r by lia.
    eapply Z.le_trans; [|exact Hlo].
    apply Z.pow_le_mono_r; lia. }
  destruct (Z.eq_dec M (2 ^ 53)) as [HM|HM].
  - (* the rounding carried into a 54th bit: one more exact shift *)
    exists (2 ^ 52), (e' + 1). rewrite HM.
    change (Zdigits2 (2 ^ 53)) with 54.
    replace (fexp prec emax (54 + e') - e') with 1
      by (rewrite fexp_eq; lia).
    cbn [shr shr_record_of_loc SpecFloat.iter_pos shr_1 shr_m Z.pow Z.pow_pos
         Pos.iter Pos.mul].
    split; [reflexivity|]. split; [lia|]. split.
    + replace (e' + 1 - e) with (Z.succ (e' - e)) by lia.
      rewrite Z.pow_succ_r by lia. rewrite HM in Herr. rewrite <- Hn. lia.
    + split; [lia|]. change (Zdigits2 (2 ^ 52)) with 53. rewrite fexp_eq. lia.
  - exists M, e'.
    assert (Zdigits2 M + e' - 53 <= e' /\
            fexp prec emax (Zdigits2 M + e') = e') as [Hd Hcan].
    { destruct M as [|pM|pM] eqn:HMeq; cbn [Zdigits2]; try lia.
      - rewrite fexp_eq. lia.
      - assert (Z.pos (digits2_pos pM) <= 53) as Hd1
          by (apply digits2_pos_le; lia).
        rewrite fexp_eq. split; [lia|].
        destruct (Z.eq_dec e' (-1074)) as [->|Hne]; [lia|].
        assert (52 < Z.pos (digits2_pos pM))
          by (apply digits2_pos_gt; lia).
        lia. }
    rewrite Hcan, Z.sub_diag. cbn [shr shr_m].
    split; [reflexivity|]. split; [lia|]. split; [rewrite <- Hn; exact Herr|].
    split; [lia | reflexivity].
Qed.

(** *** Values *)

Lemma powerRZ2_pos e : (0 < powerRZ 2 e)%R.
Proof. apply powerRZ_lt. lra. Qed.

Lemma powerRZ2_add a b : powerRZ 2 (a + b) = (powerRZ 2 a * powerRZ 2 b)%R.
Proof. apply powerRZ_add. lra. Qed.

Lemma IZR_pow2 k : 0 <= k -> IZR (2 ^ k) = powerRZ 2 k.
Proof.
  intros Hk. destruct k as [|p|p]; [reflexivity | | lia].
  exact (Zpower_pos_powerRZ 2 p).
Qed.

Lemma powerRZ2_le a b : a <= b -> (powerRZ 2 a <= powerRZ 2 b)%R.
Proof.
  intros Hab. replace b with (a + (b - a)) by lia.
  rewrite powerRZ2_add, <- (IZR_pow2 (b - a)) by lia.
  assert (1 <= 2 ^ (b - a)) as H1 by (apply (Z.pow_le_mono_r 2 0); lia).
  apply IZR_le in H1. pose proof (powerRZ2_pos a). nra.
Qed.

Lemma IZR_cond_Zopp s z :
  IZR (cond_Zopp s z) = ((if s then -1 else 1) * IZR z)%R.
Proof. destruct s; cbn [cond_Zopp]; [rewrite opp_IZR|]; lra. Qed.

Lemma Rabs_sign (s : bool) : Rabs (if s then -1 else 1) = 1%R.
Proof. destruct s; unfold Rabs; destruct (Rcase_abs _); lra. Qed.

Lemma rounded_value sx m1 e1 :
  0 <= m1 ->
  SF2R (rounded sx m1 e1) = 0%R \/
  SF2R (rounded sx m1 e1) = (IZR (cond_Zopp sx m1) * powerRZ 2 e1)%R /\
  SF_finite (rounded sx m1 e1) = true.
Proof.
  intros Hm. destruct m1 as [|p|p]; [| |lia]; cbn [rounded].
  - left. reflexivity.
  - destruct (e1 <=? emax - prec); [right; split; reflexivity | left; reflexivity].
Qed.

Lemma rounded_finite sx m1 e1 :
  0 <= m1 -> SF_finite (rounded sx m1 e1) = true ->
  SF2R (rounded sx m1 e1) = (IZR (cond_Zopp sx m1) * powerRZ 2 e1)%R.
Proof.
  intros Hm. destruct m1 as [|p|p]; [| |lia]; cbn [rounded].
  - intros _. rewrite IZR_cond_Zopp. cbn [SF2R]. lra.
  - destruct (e1 <=? emax - prec); [reflexivity | discriminate].
Qed.

(** The standard model of rounding to nearest: a relative error of at most
    [half_ulp], or an absolute error of at most [half_tiny] under the
    normal range. *)
Lemma binary_round_aux_error sx m e :
  let r := binary_round_aux prec emax sx (Z.pos m) e loc_Exact in
  let x := (IZR (cond_Zopp sx (Z.pos m)) * powerRZ 2 e)%R in
  SF_finite r = true ->
  (Rabs (SF2R r - x) <= half_ulp * Rabs x + half_tiny)%R.
Proof.
  intros r x Hfin.
  assert (0 <= half_ulp * Rabs x + half_tiny)%R as Hnonneg.
  { pose proof (Rabs_pos x). pose proof (powerRZ2_pos (-53)).
    pose proof (powerRZ2_pos (-1075)). unfold half_ulp, half_tiny. nra. }
  set (d := Z.pos (digits2_pos m)).
  destruct (Z_lt_le_dec e (fexp prec emax (d + e))) as [Hlt|Hle].
  - destruct (binary_round_aux_shift sx m e Hlt)
      as (m1 & e1 & Hr & Hm1 & Herr & He1 & _).
    fold r in Hr. fold d in Herr, He1.
    set (e' := fexp prec emax (d + e)) in *.
    rewrite Hr in Hfin |- *. rewrite rounded_finite by (lia || assumption).
    unfold x. rewrite !IZR_cond_Zopp.
    replace e1 with ((e1 - e) + e) at 1 by lia.
    rewrite powerRZ2_add, <- (IZR_pow2 (e1 - e)) by lia.
    apply IZR_le in Herr. rewrite mult_IZR, abs_IZR, minus_IZR, mult_IZR in Herr.
    rewrite (IZR_pow2 (e' - e)) in Herr by lia.
    set (D := (IZR m1 * IZR (2 ^ (e1 - e)) - IZR (Z.pos m))%R) in *.
    replace ((if sx then -1 else 1) * IZR m1 * (IZR (2 ^ (e1 - e)) * powerRZ 2 e) -
             (if sx then -1 else 1) * IZR (Z.pos m) * powerRZ 2 e)%R
      with ((if sx then -1 else 1) * (D * powerRZ 2 e))%R
      by (unfold D; ring).
    pose proof (powerRZ2_pos e) as He.
    assert (Rabs ((if sx then -1 else 1) * (D * powerRZ 2 e))
            = (Rabs D * powerRZ 2 e)%R) as ->.
    { rewrite !Rabs_mult, (Rabs_pos_eq (powerRZ 2 e)), Rabs_sign by lra. lra. }
    assert (Rabs ((if sx then -1 else 1) * IZR (Z.pos m) * powerRZ 2 e)
            = (IZR (Z.pos m) * powerRZ 2 e)%R) as ->.
    { assert (0 < IZR (Z.pos m))%R by (apply IZR_lt; lia).
      rewrite !Rabs_mult, (Rabs_pos_eq (powerRZ 2 e)),
        (Rabs_pos_eq (IZR (Z.pos m))), Rabs_sign by lra. lra. }
    assert (2 * (Rabs D * powerRZ 2 e) <= powerRZ 2 e')%R as Hhalf.
    { replace e' with ((e' - e) + e) by lia. rewrite powerRZ2_add.
      pose proof (Rabs_pos D). nra. }
    assert (powerRZ 2 e' <=
            2 * (half_ulp * (IZR (Z.pos m) * powerRZ 2 e) + half_tiny))%R; [|lra].
    pose proof (fexp_eq (d + e)) as He'. fold e' in He'.
    pose proof (digits2_pos_bounds m) as [Hlo _]. fold d in Hlo.
    assert (0 < half_ulp)%R by apply powerRZ2_pos.
    assert (0 < half_tiny)%R by apply powerRZ2_pos.
    assert (0 < IZR (Z.pos m))%R by (apply IZR_lt; lia).
    destruct (Z.eq_dec e' (-1074)) as [->|Hne].
    + replace (-1074) with (1 + -1075) by lia. rewrite powerRZ2_add.
      change (powerRZ 2 1) with (2 * 1)%R. fold half_tiny.
      assert (0 <= half_ulp * (IZR (Z.pos m) * powerRZ 2 e))%R
        by (apply Rmult_le_pos; [|apply Rmult_le_pos]; lra).
      lra.
    + assert (e' = 1 + ((d - 1) + (e + -53))) as -> by lia.
      rewrite !powerRZ2_add. change (powerRZ 2 1) with (2 * 1)%R.
      fold half_ulp. rewrite <- (IZR_pow2 (d - 1)) by lia.
      apply IZR_le in Hlo.
      assert (IZR (2 ^ (d - 1)) * (powerRZ 2 e * half_ulp)
              <= IZR (Z.pos m) * (powerRZ 2 e * half_ulp))%R
        by (apply Rmult_le_compat_r; [apply Rmult_le_pos|]; lra).
      lra.
  - pose proof (binary_round_aux_exact sx m e Hle) as Hr. fold r in Hr.
    rewrite Hr in Hfin |- *. rewrite rounded_finite by (lia || assumption).
    unfold x. replace (_ - _)%R with 0%R by ring. rewrite Rabs_R0. exact Hnonneg.
Qed.

(** *** Alignment *)

Lemma shl_align_spec m e e' :
  exists k, 0 <= k /\
    shl_align m e e' = (Z.to_pos (Z.pos m * 2 ^ k), e - k) /\
    (e' < e -> k = e - e') /\ (e <= e' -> k = 0).
Proof.
  unfold shl_align. destruct (e' - e) as [|p|p] eqn:Hd.
  - exists 0. rewrite Z.mul_1_r, Z.sub_0_r. cbn [Z.to_pos].
    repeat split; lia.
  - exists 0. rewrite Z.mul_1_r, Z.sub_0_r. cbn [Z.to_pos].
    repeat split; lia.
  - exists (Z.pos p). split; [lia|]. split; [|split; lia].
    f_equal; [|lia].
    change (Pos.iter xO m p) with (shift_pos p m).
    apply Pos2Z.inj. rewrite shift_pos_correct.
    change (Z.pow_pos 2 p) with (2 ^ Z.pos p).
    assert (0 < 2 ^ Z.pos p) by (apply Z.pow_pos_nonneg; lia).
    rewrite Z2Pos.id by lia. lia.
Qed.

Lemma shl_align_value m e e' :
  (IZR (Z.pos (fst (shl_align m e e'))) * powerRZ 2 (snd (shl_align m e e')))%R
  = (IZR (Z.pos m) * powerRZ 2 e)%R.
Proof.
  destruct (shl_align_spec m e e') as (k & Hk & -> & _). cbn [fst snd].
  assert (0 < 2 ^ k) by (apply Z.pow_pos_nonneg; lia).
  rewrite Z2Pos.id by lia. rewrite mult_IZR, IZR_pow2 by lia.
  replace e with (k + (e - k)) at 2 by lia. rewrite powerRZ2_add. ring.
Qed.

Lemma digits2_pos_unique m d :
  2 ^ (d - 1) <= Z.pos m < 2 ^ d -> Z.pos (digits2_pos m) = d.
Proof.
  intros [Hlo Hhi].
  assert (0 <= d).
  { destruct (Z_lt_le_dec d 0) as [Hneg|]; [|lia].
    rewrite Z.pow_neg_r in Hhi; lia. }
  assert (Z.pos (digits2_pos m) <= d) by (apply digits2_pos_le; lia).
  destruct (Z.eq_dec d 0) as [->|]; [simpl in Hhi; lia|].
  assert (d - 1 < Z.pos (digits2_pos m)) by (apply digits2_pos_gt; lia).
  lia.
Qed.

Lemma digits2_pos_shift m k :
  0 <= k ->
  Z.pos (digits2_pos (Z.to_pos (Z.pos m * 2 ^ k))) = Z.pos (digits2_pos m) + k.
Proof.
  intros Hk. apply digits2_pos_unique.
  assert (0 < 2 ^ k) by (apply Z.pow_pos_nonneg; lia).
  rewrite Z2Pos.id by lia.
  pose proof (digits2_pos_bounds m) as [Hlo Hhi].
  replace (Z.pos (digits2_pos m) + k - 1)
    with ((Z.pos (digits2_pos m) - 1) + k) by lia.
  rewrite !Z.pow_add_r by lia. nia.
Qed.

Lemma shl_align_snd m e e' : e' <= e -> snd (shl_align m e e') = e'.
Proof.
  intros Hle. destruct (shl_align_spec m e e') as (k & Hk & -> & Hlt & Hge).
  cbn [snd]. destruct (Z.eq_dec e e') as [->|]; lia.
Qed.

(** *** Rounding a number [m * 2 ^ e] *)

Lemma rounded_valid sx m1 e1 :
  0 <= m1 -> fexp prec emax (Zdigits2 m1 + e1) = e1 ->
  SpecFloat.valid_binary prec emax (rounded sx m1 e1) = true.
Proof.
  intros Hm Hcan. destruct m1 as [|p|p]; [reflexivity | | lia].
  cbn [rounded]. destruct (e1 <=? emax - prec) eqn:He; [|reflexivity].
  cbn [SpecFloat.valid_binary]. unfold SpecFloat.bounded, canonical_mantissa.
  cbn [Zdigits2] in Hcan. rewrite Hcan, Z.eqb_refl, He. reflexivity.
Qed.

Lemma binary_round_error sx m e :
  let r := binary_round prec emax sx m e in
  let x := (IZR (cond_Zopp sx (Z.pos m)) * powerRZ 2 e)%R in
  SF_finite r = true ->
  (Rabs (SF2R r - x) <= half_ulp * Rabs x + half_tiny)%R.
Proof.
  intros r x. unfold r, binary_round.
  pose proof (shl_align_value m e (fexp prec emax (Z.pos (digits2_pos m) + e)))
    as Hval.
  destruct (shl_align m e _) as [mz ez]. cbn [fst snd] in Hval.
  intros Hfin. pose proof (binary_round_aux_error sx mz ez Hfin) as Herr.
  cbv zeta in Herr.
  replace (IZR (cond_Zopp sx (Z.pos mz)) * powerRZ 2 ez)%R with x in Herr;
    [exact Herr|].
  unfold x. rewrite !IZR_cond_Zopp, !Rmult_assoc, Hval. reflexivity.
Qed.

Lemma binary_round_valid sx m e :
  SpecFloat.valid_binary prec emax (binary_round prec emax sx m e) = true.
Proof.
  unfold binary_round.
  set (d := Z.pos (digits2_pos m)). set (e' := fexp prec emax (d + e)).
  destruct (shl_align_spec m e e') as (k & Hk & -> & Hlt & Hge).
  pose proof (digits2_pos_shift m k Hk) as Hd. fold d in Hd.
  set (mz := Z.to_pos (Z.pos m * 2 ^ k)) in *.
  assert (fexp prec emax (Z.pos (digits2_pos mz) + (e - k)) = e') as Hfexp
    by (unfold e'; f_equal; lia).
  destruct (Z_lt_le_dec (e - k) e') as [Hshift|Hexact].
  - rewrite <- Hfexp in Hshift.
    destruct (binary_round_aux_shift sx mz (e - k) Hshift)
      as (m1 & e1 & -> & Hm1 & _ & _ & Hcan).
    apply rounded_valid; [lia | exact Hcan].
  - rewrite binary_round_aux_exact by lia.
    apply rounded_valid; [lia|]. cbn [Zdigits2]. rewrite Hfexp.
    destruct (Z_lt_le_dec e' e); lia.
Qed.

Lemma binary_normalize_error M e sz :
  let r := binary_normalize prec emax M e sz in
  let x := (IZR M * powerRZ 2 e)%R in
  SF_finite r = true ->
  (Rabs (SF2R r - x) <= half_ulp * Rabs x + half_tiny)%R.
Proof.
  intros r x Hfin. destruct M as [|m|m]; cbn [binary_normalize] in r.
  - unfold r, x. cbn [SF2R]. replace (0 - 0 * _)%R with 0%R by ring.
    rewrite Rmult_0_l, Rabs_R0. pose proof (powerRZ2_pos (-1075)).
    unfold half_tiny. lra.
  - exact (binary_round_error false m e Hfin).
  - exact (binary_round_error true m e Hfin).
Qed.

Lemma binary_normalize_valid M e sz :
  SpecFloat.valid_binary prec emax (binary_normalize prec emax M e sz) = true.
Proof.
  destruct M as [|m|m]; cbn [binary_normalize];
    [reflexivity | apply binary_round_valid ..].
Qed.

(** *** The arithmetic operations *)

Lemma SF2R_finite s m e :
  SF2R (S754_finite s m e)
  = ((if s then -1 else 1) * IZR (Z.pos m) * powerRZ 2 e)%R.
Proof. cbn [SF2R]. rewrite IZR_cond_Zopp. reflexivity. Qed.

Lemma error_bound_0 : (Rabs (0 - 0) <= half_ulp * Rabs 0 + half_tiny)%R.
Proof.
  replace (0 - 0)%R with 0%R by ring. rewrite Rabs_R0.
  pose proof (powerRZ2_pos (-1075)). unfold half_tiny. lra.
Qed.

Lemma error_bound_exact x : (Rabs (x - x) <= half_ulp * Rabs x + half_tiny)%R.
Proof.
  replace (x - x)%R with 0%R by ring. rewrite Rabs_R0.
  pose proof (powerRZ2_pos (-1075)). pose proof (powerRZ2_pos (-53)).
  pose proof (Rabs_pos x). unfold half_tiny, half_ulp. nra.
Qed.

Lemma SFmul_error x y :
  SF_finite (SFmul prec emax x y) = true ->
  SF_finite x = true /\ SF_finite y = true /\
  (Rabs (SF2R (SFmul prec emax x y) - SF2R x * SF2R y)
   <= half_ulp * Rabs (SF2R x * SF2R y) + half_tiny)%R.
Proof.
  destruct x as [sx|sx| |sx mx ex], y as [sy|sy| |sy my ey];
    cbn [SFmul SF_finite]; try discriminate; intros Hfin;
    (split; [reflexivity|]); (split; [reflexivity|]).
  - cbn [SF2R]. rewrite Rmult_0_l. apply error_bound_0.
  - cbn [SF2R]. rewrite Rmult_0_l. apply error_bound_0.
  - cbn [SF2R]. rewrite Rmult_0_r. apply error_bound_0.
  - pose proof (binary_round_aux_error _ _ _ Hfin) as Herr. cbv zeta in Herr.
    replace (SF2R (S754_finite sx mx ex) * SF2R (S754_finite sy my ey))%R
      with (IZR (cond_Zopp (xorb sx sy) (Z.pos (mx * my))) * powerRZ 2 (ex + ey))%R;
      [exact Herr|].
    rewrite !SF2R_finite, IZR_cond_Zopp, Pos2Z.inj_mul, mult_IZR, powerRZ2_add.
    destruct sx, sy; cbn [xorb]; ring.
Qed.

Lemma aligned_sum sx mx ex sy my ey (op : Z -> Z -> Z) (opR : R -> R -> R) :
  (forall a b, IZR (op a b) = opR (IZR a) (IZR b)) ->
  (forall a b c, (opR a b * c)%R = opR (a * c)%R (b * c)%R) ->
  let ez := Z.min ex ey in
  (IZR (op (cond_Zopp sx (Z.pos (fst (shl_align mx ex ez))))
           (cond_Zopp sy (Z.pos (fst (shl_align my ey ez))))) * powerRZ 2 ez)%R
  = opR (SF2R (S754_finite sx mx ex)) (SF2R (S754_finite sy my ey)).
Proof.
  intros Hop Hdist ez. rewrite Hop, Hdist, !IZR_cond_Zopp, !SF2R_finite.
  pose proof (shl_align_value mx ex ez) as Hx.
  pose proof (shl_align_value my ey ez) as Hy.
  rewrite shl_align_snd in Hx by (unfold ez; lia).
  rewrite shl_align_snd in Hy by (unfold ez; lia).
  rewrite !Rmult_assoc, Hx, Hy. reflexivity.
Qed.

Lemma SFadd_error x y :
  SF_finite (SFadd prec emax x y) = true ->
  SF_finite x = true /\ SF_finite y = true /\
  (Rabs (SF2R (SFadd prec emax x y) - (SF2R x + SF2R y))
   <= half_ulp * Rabs (SF2R x + SF2R y) + half_tiny)%R.
Proof.
  destruct x as [sx|sx| |sx mx ex], y as [sy|sy| |sy my ey];
    cbn [SFadd SF_finite]; try discriminate;
    try (destruct sx, sy; discriminate); intros Hfin;
    (split; [reflexivity|]); (split; [reflexivity|]).
  - destruct sx, sy; cbn [SF2R]; rewrite Rplus_0_l; apply error_bound_0.
  - cbn [SF2R]. rewrite Rplus_0_l. apply error_bound_exact.
  - cbn [SF2R]. rewrite Rplus_0_r. apply error_bound_exact.
  - pose proof (binary_normalize_error _ _ _ Hfin) as Herr. cbv zeta in Herr.
    rewrite (aligned_sum sx mx ex sy my ey Z.add Rplus) in Herr;
      [exact Herr | apply plus_IZR | intros; ring].
Qed.

Lemma SFsub_error x y :
  SF_finite (SFsub prec emax x y) = true ->
  SF_finite x = true /\ SF_finite y = true /\
  (Rabs (SF2R (SFsub prec emax x y) - (SF2R x - SF2R y))
   <= half_ulp * Rabs (SF2R x - SF2R y) + half_tiny)%R.
Proof.
  destruct x as [sx|sx| |sx mx ex], y as [sy|sy| |sy my ey];
    cbn [SFsub SF_finite]; try discriminate;
    try (destruct sx, sy; discriminate); intros Hfin;
    (split; [reflexivity|]); (split; [reflexivity|]).
  - destruct sx, sy; cbn [SF2R]; rewrite Rminus_0_r; apply error_bound_0.
  - replace (SF2R (S754_finite (negb sy) my ey))
      with (SF2R (S754_zero sx) - SF2R (S754_finite sy my ey))%R;
      [apply error_bound_exact|].
    rewrite !SF2R_finite. cbn [SF2R]. destruct sy; cbn [negb]; ring.
  - cbn [SF2R]. rewrite Rminus_0_r. apply error_bound_exact.
  - pose proof (binary_normalize_error _ _ _ Hfin) as Herr. cbv zeta in Herr.
    rewrite (aligned_sum sx mx ex sy my ey Z.sub Rminus) in Herr;
      [exact Herr | apply minus_IZR | intros; ring].
Qed.

Lemma powerRZ2_neg_numeral (p : positive) :
  powerRZ 2 (Z.neg p) = (/ IZR (2 ^ Z.pos p))%R.
Proof.
  change (Z.neg p) with (- Z.pos p)%Z. rewrite powerRZ_neg'. f_equal.
  symmetry. exact (Zpower_pos_powerRZ 2 p).
Qed.

Lemma Rabs_le_inv x e : (Rabs x <= e)%R -> (- e <= x <= e)%R.
Proof. unfold Rabs. destruct (Rcase_abs x); lra. Qed.

Ltac tolerances :=
  unfold half_ulp, half_tiny, fee_rel_tol, fee_abs_tol in *;
  rewrite ?powerRZ2_neg_numeral in *;
  repeat match goal with
  | |- context [IZR (2 ^ Z.pos ?p)] =>
      let v := eval vm_compute in (2 ^ Z.pos p)%Z in
      change (2 ^ Z.pos p)%Z with v in *
  | H : context [IZR (2 ^ Z.pos ?p)] |- _ =>
      let v := eval vm_compute in (2 ^ Z.pos p)%Z in
      change (2 ^ Z.pos p)%Z with v in *
  end.

Lemma Prim2SF_1 : Prim2SF 1 = S754_finite false 4503599627370496 (-52).
Proof. reflexivity. Qed.

Lemma Prim2SF_0 : Prim2SF 0 = S754_zero false.
Proof. reflexivity. Qed.

Lemma float_of_int_1 : float_of_int 1 = Ok 1%float.
Proof. reflexivity. Qed.

Lemma float_of_int_0 : float_of_int 0 = Ok 0%float.
Proof. reflexivity. Qed.

Lemma SF2R_1 : SF2R (Prim2SF 1) = 1%R.
Proof.
  rewrite Prim2SF_1. cbn [SF2R cond_Zopp]. rewrite powerRZ2_neg_numeral.
  change (2 ^ 52) with 4503599627370496. field.
Qed.

(** The rounding errors of [f * (1 - p) + f * p] add up to a few units in
    the last place of [f]. *)
Lemma fee_sum_error (f F P A B C S : R) :
  (Rabs (F - f) <= half_ulp * Rabs f + half_tiny)%R ->
  (0 <= P <= 1)%R ->
  (Rabs (A - (1 - P)) <= half_ulp * Rabs (1 - P) + half_tiny)%R ->
  (Rabs (B - F * A) <= half_ulp * Rabs (F * A) + half_tiny)%R ->
  (Rabs (C - F * P) <= half_ulp * Rabs (F * P) + half_tiny)%R ->
  (Rabs (S - (B + C)) <= half_ulp * Rabs (B + C) + half_tiny)%R ->
  (Rabs (S - f) <= fee_rel_tol * Rabs f + fee_abs_tol)%R.
Proof.
  intros HF HP HA HB HC HS.
  rewrite (Rabs_pos_eq (1 - P)) in HA by lra.
  rewrite !Rabs_mult in HB, HC. rewrite (Rabs_pos_eq P) in HC by lra.
  pose proof (Rabs_pos F) as HaF. pose proof (Rabs_pos f) as Haf.
  assert (Rabs A <= 1 + half_ulp + half_tiny)%R as HA1.
  { apply Rabs_le. apply Rabs_le_inv in HA. tolerances. lra. }
  assert (Rabs F * Rabs A <= Rabs F * (1 + half_ulp + half_tiny))%R as HX
    by (apply Rmult_le_compat_l; assumption).
  assert (Rabs F * P <= Rabs F * 1)%R as HY
    by (apply Rmult_le_compat_l; lra).
  assert (Rabs (F * (A - (1 - P))) <= Rabs F * (half_ulp + half_tiny))%R as HZ.
  { rewrite Rabs_mult. apply Rmult_le_compat_l; [assumption|].
    tolerances. lra. }
  assert (- Rabs F <= F <= Rabs F)%R as HFb
    by (apply Rabs_le_inv; lra).
  assert (Rabs F <= Rabs f + Rabs (F - f))%R as HFf.
  { replace F with (f + (F - f))%R at 1 by ring. apply Rabs_triang. }
  replace (F * (A - (1 - P)))%R with (F * A + F * P - F)%R in HZ by ring.
  apply Rabs_le_inv in HB, HC, HZ.
  set (XA := (Rabs F * Rabs A)%R) in *. clearbody XA.
  set (YA := (Rabs F * P)%R) in *. clearbody YA.
  set (X := (F * A)%R) in *. clearbody X.
  set (Y := (F * P)%R) in *. clearbody Y.
  set (aF := Rabs F) in *. clearbody aF.
  clear HA HA1 HP.
  assert (Rabs (B + C) <= aF * (1 + 4 * half_ulp) + 2 * half_tiny)%R as HBC.
  { apply Rabs_le. tolerances. lra. }
  pose proof HF as HF'. apply Rabs_le_inv in HS, HF.
  set (aBC := Rabs (B + C)) in *. clearbody aBC.
  set (aFf := Rabs (F - f)) in *. clearbody aFf.
  apply Rabs_le.
  set (af := Rabs f) in *. clearbody af.
  tolerances. lra.
Qed.

(** *** Primitive floats *)

Lemma mul_error x y :
  SF_finite (Prim2SF (x * y)) = true ->
  SF_finite (Prim2SF x) = true /\ SF_finite (Prim2SF y) = true /\
  (Rabs (SF2R (Prim2SF (x * y)) - SF2R (Prim2SF x) * SF2R (Prim2SF y))
   <= half_ulp * Rabs (SF2R (Prim2SF x) * SF2R (Prim2SF y)) + half_tiny)%R.
Proof. rewrite mul_spec. apply SFmul_error. Qed.

Lemma add_error x y :
  SF_finite (Prim2SF (x + y)) = true ->
  SF_finite (Prim2SF x) = true /\ SF_finite (Prim2SF y) = true /\
  (Rabs (SF2R (Prim2SF (x + y)) - (SF2R (Prim2SF x) + SF2R (Prim2SF y)))
   <= half_ulp * Rabs (SF2R (Prim2SF x) + SF2R (Prim2SF y)) + half_tiny)%R.
Proof. rewrite add_spec. apply SFadd_error. Qed.

Lemma sub_error x y :
  SF_finite (Prim2SF (x - y)) = true ->
  SF_finite (Prim2SF x) = true /\ SF_finite (Prim2SF y) = true /\
  (Rabs (SF2R (Prim2SF (x - y)) - (SF2R (Prim2SF x) - SF2R (Prim2SF y)))
   <= half_ulp * Rabs (SF2R (Prim2SF x) - SF2R (Prim2SF y)) + half_tiny)%R.
Proof. rewrite sub_spec. apply SFsub_error. Qed.

Lemma float_of_int_error z x :
  float_of_int z = Ok x ->
  SF_finite (Prim2SF x) = true ->
  (Rabs (SF2R (Prim2SF x) - IZR z) <= half_ulp * Rabs (IZR z) + half_tiny)%R.
Proof.
  unfold float_of_int. cbv zeta.
  destruct (PrimFloat.is_infinity _); [discriminate|]. intros [= <-].
  rewrite Prim2SF_SF2Prim by apply binary_normalize_valid.
  intros Hfin. pose proof (binary_normalize_error _ _ _ Hfin) as Herr.
  cbv zeta in Herr. change (powerRZ 2 0) with 1%R in Herr.
  rewrite Rmult_1_r in Herr. exact Herr.
Qed.

(** A float between 0.0 and 1.0 (for [<=]) is finite, and so is its value. *)
Lemma rate_bounds q :
  (0 <=? q)%float = true -> (q <=? 1)%float = true ->
  SF_finite (Prim2SF q) = true /\ (0 <= SF2R (Prim2SF q) <= 1)%R.
Proof.
  rewrite !leb_spec, Prim2SF_0, Prim2SF_1.
  pose proof (Prim2SF_valid q) as Hvalid.
  destruct (Prim2SF q) as [s|s| |s m e]; cbn [SFleb SFcompare SF_finite SF2R].
  - intros _ _. split; [reflexivity | lra].
  - destruct s; discriminate.
  - discriminate.
  - destruct s; [discriminate|]. intros _ Hle. split; [reflexivity|].
    cbn [cond_Zopp].
    cbn [SpecFloat.valid_binary] in Hvalid. unfold SpecFloat.bounded in Hvalid.
    apply andb_prop in Hvalid as [Hcan _]. unfold canonical_mantissa in Hcan.
    apply Z.eqb_eq in Hcan. rewrite fexp_eq in Hcan.
    pose proof (digits2_pos_bounds m) as [_ Hhi].
    assert (Z.pos m < 2 ^ 53) as Hm.
    { eapply Z.lt_le_trans; [exact Hhi|]. apply Z.pow_le_mono_r; lia. }
    assert (0 < IZR (Z.pos m))%R as Hpos by (apply IZR_lt; lia).
    pose proof (powerRZ2_pos e) as He.
    split; [apply Rmult_le_pos; lra|].
    destruct (Z.compare_spec e (-52)) as [->|Hlt|Hgt]; [| |discriminate].
    + assert (Z.pos m <= 2 ^ 52) as Hm52.
      { change (2 ^ 52) with (Z.pos 4503599627370496).
        apply Pos2Z.pos_le_pos, Pos.compare_le_iff.
        rewrite Pos.compare_cont_spec in Hle; cbn [Pos.switch_Eq] in Hle.
        intros Hgt. rewrite Hgt in Hle. discriminate. }
      apply IZR_le in Hm52. rewrite powerRZ2_neg_numeral.
      change (2 ^ 52) with 4503599627370496 in *.
      apply (Rmult_le_reg_r 4503599627370496); [lra|]. 
      rewrite Rmult_assoc, Rinv_l by lra. lra.
    + apply IZR_lt in Hm.
      pose proof (powerRZ2_le e (-53) ltac:(lia)) as Hpow.
      rewrite (powerRZ2_neg_numeral 53) in Hpow.
      change (2 ^ 53) with 9007199254740992 in *.
      assert (IZR (Z.pos m) * powerRZ 2 e
              <= 9007199254740992 * / 9007199254740992)%R
        by (apply Rmult_le_compat; lra).
      rewrite Rinv_r in H by lra. exact H.
Qed.

Lemma fee_tol_nonneg x : (0 <= fee_rel_tol * Rabs x + fee_abs_tol)%R.
Proof.
  pose proof (Rabs_pos x). pose proof (powerRZ2_pos (-50)).
  pose proof (powerRZ2_pos (-1072)). unfold fee_rel_tol, fee_abs_tol. nra.
Qed.

Lemma float_sum_error (x a q : float) (f P : R) :
  (SF_finite (Prim2SF x) = true ->
   (Rabs (SF2R (Prim2SF x) - f) <= half_ulp * Rabs f + half_tiny)%R) ->
  (0 <= P <= 1)%R -> SF2R (Prim2SF q) = P ->
  (SF_finite (Prim2SF a) = true ->
   (Rabs (SF2R (Prim2SF a) - (1 - P)) <= half_ulp * Rabs (1 - P) + half_tiny)%R) ->
  SF_finite (Prim2SF (x * a + x * q)) = true ->
  (Rabs (SF2R (Prim2SF (x * a + x * q)) - f)
   <= fee_rel_tol * Rabs f + fee_abs_tol)%R.
Proof.
  intros Hx HP Hq Ha Hfin.
  apply add_error in Hfin as (Hb & Hc & HS).
  apply mul_error in Hb as (Hxfin & Hafin & HB).
  apply mul_error in Hc as (_ & _ & HC).
  rewrite Hq in HC.
  exact (fee_sum_error f _ P _ _ _ _ (Hx Hxfin) HP (Ha Hafin) HB HC HS).
Qed.

Lemma py_sub_1_float q :
  py_sub (PyInt 1) (PyFloat q) = Ok (PyFloat (1 - q)).
Proof. reflexivity. Qed.

(** [f * (1 - p) + f * p] against [f], for a rate [p] between 0 and 1. *)
Lemma sum_error f p s :
  is_rate p = true ->
  (n ← (d ← py_sub (PyInt 1) p; py_mul f d); c ← py_mul f p; py_add n c)
    = Ok s ->
  num_finite s = true ->
  (Rabs (num_value s - num_value f)
   <= fee_rel_tol * Rabs (num_value f) + fee_abs_tol)%R.
Proof.
  intros Hrate Hs Hfin. destruct f as [fz|x], p as [pz|q].
  - cbn in Hs. injection Hs as <-. cbn [num_value].
    replace (fz * (1 - pz) + fz * pz) with fz by ring.
    replace (IZR fz - IZR fz)%R with 0%R by ring. rewrite Rabs_R0.
    apply fee_tol_nonneg.
  - rewrite py_sub_1_float in Hs. cbn [mbind result_bind] in Hs.
    unfold py_mul, py_arith in Hs.
    destruct (float_of_int fz) as [F|e] eqn:HF; [|discriminate].
    cbn [mbind result_bind] in Hs. unfold py_add, py_arith in Hs.
    injection Hs as <-. cbn [num_value num_finite is_rate] in *.
    apply andb_prop in Hrate as [H0 H1].
    destruct (rate_bounds q H0 H1) as [Hqfin Hq].
    apply (float_sum_error F (1 - q)%float q (IZR fz) (SF2R (Prim2SF q)));
      [apply float_of_int_error; exact HF | exact Hq | reflexivity | | exact Hfin].
    intros Hafin. apply sub_error in Hafin as (_ & _ & Herr).
    rewrite SF2R_1 in Herr. exact Herr.
  - cbn [is_rate] in Hrate. apply andb_prop in Hrate as [H0 H1].
    apply Z.leb_le in H0, H1.
    assert (pz = 0 \/ pz = 1) as [-> | ->] by lia.
    + change (py_sub (PyInt 1) (PyInt 0)) with (Ok (PyInt 1)) in Hs.
      cbn [mbind result_bind] in Hs. unfold py_mul, py_arith in Hs.
      rewrite float_of_int_1, float_of_int_0 in Hs.
      cbn [mbind result_bind] in Hs. unfold py_add, py_arith in Hs.
      injection Hs as <-. cbn [num_value num_finite] in *.
      apply (float_sum_error x 1%float 0%float (SF2R (Prim2SF x)) 0%R);
        [intros _; apply error_bound_exact | lra | reflexivity | | exact Hfin].
      intros _. rewrite SF2R_1. replace (1 - 0)%R with 1%R by ring.
      apply error_bound_exact.
    + change (py_sub (PyInt 1) (PyInt 1)) with (Ok (PyInt 0)) in Hs.
      cbn [mbind result_bind] in Hs. unfold py_mul, py_arith in Hs.
      rewrite float_of_int_1, float_of_int_0 in Hs.
      cbn [mbind result_bind] in Hs. unfold py_add, py_arith in Hs.
      injection Hs as <-. cbn [num_value num_finite] in *.
      apply (float_sum_error x 0%float 1%float (SF2R (Prim2SF x)) 1%R);
        [intros _; apply error_bound_exact | lra | exact SF2R_1 | | exact Hfin].
      intros _. rewrite Prim2SF_0. cbn [SF2R].
      replace (1 - 1)%R with 0%R by ring. apply error_bound_exact.
  - rewrite py_sub_1_float in Hs. cbn [mbind result_bind] in Hs.
    unfold py_mul, py_add, py_arith in Hs. cbn [mbind result_bind] in Hs.
    injection Hs as <-. cbn [num_value num_finite is_rate] in *.
    apply andb_prop in Hrate as [H0 H1].
    destruct (rate_bounds q H0 H1) as [Hqfin Hq].
    apply (float_sum_error x (1 - q)%float q (SF2R (Prim2SF x)) (SF2R (Prim2SF q)));
      [intros _; apply error_bound_exact | exact Hq | reflexivity | | exact Hfin].
    intros Hafin. apply sub_error in Hafin as (_ & _ & Herr).
    rewrite SF2R_1 in Herr. exact Herr.
Qed.

(** ** Fees *)

Section FeeLaws.
Context {T : Type} `{Transaction.Like T}.
Variable self : T.

Lemma fee_eq :
  Transaction.fee self =
  py_mul (Transaction.price (Transaction.base self))
         (PyInt (Transaction.quantity (Transaction.base self))).
Proof. reflexivity. Qed.

Lemma service_charge_eq f p :
  Transaction.fee self = Ok f ->
  Transaction.service_percent self = Ok p ->
  Transaction.service_charge self = py_mul f p.
Proof. intros Hf Hp. unfold Transaction.service_charge. by rewrite Hf, Hp. Qed.

Lemma fee_final_eq f p :
  Transaction.fee self = Ok f ->
  Transaction.service_percent self = Ok p ->
  Transaction.fee_final self = (d ← py_sub (PyInt 1) p; py_mul f d).
Proof. intros Hf Hp. unfold Transaction.fee_final. by rewrite Hf, Hp. Qed.

(** With an integer price and an integer rate the arithmetic is that of
    [int], which is exact. *)
Lemma fee_final_plus_charge_int (pz sz : Z) :
  Transaction.price (Transaction.base self) = PyInt pz ->
  Transaction.service_percent self = Ok (PyInt sz) ->
  exists f n c,
    Transaction.fee self = Ok f /\
    Transaction.fee_final self = Ok n /\
    Transaction.service_charge self = Ok c /\
    py_add n c = Ok f.
Proof.
  intros Hprice Hp.
  assert (Transaction.fee self =
          Ok (PyInt (pz * Transaction.quantity (Transaction.base self))))
    as Hf by (by rewrite fee_eq, Hprice).
  eexists _, _, _. split; [exact Hf|].
  rewrite (fee_final_eq _ _ Hf Hp), (service_charge_eq _ _ Hf Hp). cbn.
  split; [reflexivity|]. split; [reflexivity|].
  unfold py_add, py_arith. do 2 f_equal. ring.
Qed.

Lemma fee_sum_eq f p :
  Transaction.fee self = Ok f ->
  Transaction.service_percent self = Ok p ->
  fee_sum self =
    (n ← (d ← py_sub (PyInt 1) p; py_mul f d); c ← py_mul f p; py_add n c).
Proof.
  intros Hf Hp. unfold fee_sum.
  by rewrite (fee_final_eq _ _ Hf Hp), (service_charge_eq _ _ Hf Hp).
Qed.

(** On floats no operation raises: the sum is the float
    [x * (1 - q) + x * q]. *)
Lemma fee_sum_float x q :
  Transaction.fee self = Ok (PyFloat x) ->
  Transaction.service_percent self = Ok (PyFloat q) ->
  fee_sum self = Ok (PyFloat (x * (1 - q) + x * q)).
Proof. intros Hf Hp. by rewrite (fee_sum_eq _ _ Hf Hp). Qed.

(** For a rate between 0 and 1 and a finite sum, the sum is within the
    tolerance of [fee]. *)
Lemma fee_sum_tolerance f p s :
  Transaction.fee self = Ok f ->
  Transaction.service_percent self = Ok p ->
  is_rate p = true ->
  fee_sum self = Ok s ->
  num_finite s = true ->
  (Rabs (num_value s - num_value f)
   <= fee_rel_tol * Rabs (num_value f) + fee_abs_tol)%R.
Proof.
  intros Hf Hp Hrate Hs Hfin. rewrite (fee_sum_eq _ _ Hf Hp) in Hs.
  exact (sum_error f p s Hrate Hs Hfin).
Qed.
End FeeLaws.


(** C4 (amended). For a buy and for a sell, in the arithmetic of Python
    numbers: [service_percent] is commission + transfer_fee for a buy and
    commission + transfer_fee + stamp_duty for a sell, with the rates of
    the owning stock; [fee] is price times quantity; [service_charge] is
    [fee] times [service_percent]; [fee_final] is [fee] times
    (1 - [service_percent]). When the price and [service_percent] are
    integers, [fee_final + service_charge] is [fee] exactly. When [fee] and
    [service_percent] are floats, the sum is computed without an exception
    and is the float [fee * (1 - service_percent) + fee * service_percent].
    Whatever the types, when [service_percent] lies between 0 and 1 and
    the sum is finite, the sum differs from [fee] by at most 2^-50 times
    the magnitude of [fee] plus 2^-1072: the two agree within
    floating-point tolerance. *)
Theorem fee_relations :
  (forall b : BuyTransaction.t,
     Transaction.service_percent b =
       py_add (StockAttrs.commission (Transaction.stock (BuyTransaction.super b)))
              (StockAttrs.transfer_fee (Transaction.stock (BuyTransaction.super b))) /\
     Transaction.fee b =
       py_mul (Transaction.price (BuyTransaction.super b))
              (PyInt (BuyTransaction.quantity b)) /\
     (forall f p,
        Transaction.fee b = Ok f -> Transaction.service_percent b = Ok p ->
        Transaction.service_charge b = py_mul f p /\
        Transaction.fee_final b = (d ← py_sub (PyInt 1) p; py_mul f d)) /\
     (forall pz sz,
        Transaction.price (BuyTransaction.super b) = PyInt pz ->
        Transaction.service_percent b = Ok (PyInt sz) ->
        exists f n c,
          Transaction.fee b = Ok f /\ Transaction.fee_final b = Ok n /\
          Transaction.service_charge b = Ok c /\ py_add n c = Ok f) /\
     (forall x q,
        Transaction.fee b = Ok (PyFloat x) ->
        Transaction.service_percent b = Ok (PyFloat q) ->
        fee_sum b = Ok (PyFloat (x * (1 - q) + x * q))) /\
     (forall f p s,
        Transaction.fee b = Ok f -> Transaction.service_percent b = Ok p ->
        is_rate p = true -> fee_sum b = Ok s -> num_finite s = true ->
        (Rabs (num_value s - num_value f)
         <= fee_rel_tol * Rabs (num_value f) + fee_abs_tol)%R)) /\
  (forall s : SellTransaction.t,
     Transaction.service_percent s =
       (r ← py_add (StockAttrs.commission (Transaction.stock (SellTransaction.super s)))
                   (StockAttrs.transfer_fee (Transaction.stock (SellTransaction.super s)));
        py_add r (StockAttrs.stamp_duty (Transaction.stock (SellTransaction.super s)))) /\
     Transaction.fee s =
       py_mul (Transaction.price (SellTransaction.super s))
              (PyInt (SellTransaction.quantity s)) /\
     (forall f p,
        Transaction.fee s = Ok f -> Transaction.service_percent s = Ok p ->
        Transaction.service_charge s = py_mul f p /\
        Transaction.fee_final s = (d ← py_sub (PyInt 1) p; py_mul f d)) /\
     (forall pz sz,
        Transaction.price (SellTransaction.super s) = PyInt pz ->
        Transaction.service_percent s = Ok (PyInt sz) ->
        exists f n c,
          Transaction.fee s = Ok f /\ Transaction.fee_final s = Ok n /\
          Transaction.service_charge s = Ok c /\ py_add n c = Ok f) /\
     (forall x q,
        Transaction.fee s = Ok (PyFloat x) ->
        Transaction.service_percent s = Ok (PyFloat q) ->
        fee_sum s = Ok (PyFloat (x * (1 - q) + x * q))) /\
     (forall f p t,
        Transaction.fee s = Ok f -> Transaction.service_percent s = Ok p ->
        is_rate p = true -> fee_sum s = Ok t -> num_finite t = true ->
        (Rabs (num_value t - num_value f)
         <= fee_rel_tol * Rabs (num_value f) + fee_abs_tol)%R)).
Proof.
  split.
  - intros b. split; [reflexivity|]. split; [reflexivity|]. split; [|split; [|split]].
    + intros f p Hf Hp. split;
        [by apply service_charge_eq | by apply fee_final_eq].
    + intros pz sz Hprice Hp. exact (fee_final_plus_charge_int b pz sz Hprice Hp).
    + intros x q Hf Hp. exact (fee_sum_float b x q Hf Hp).
    + intros f p s Hf Hp Hrate Hs Hfin.
      exact (fee_sum_tolerance b f p s Hf Hp Hrate Hs Hfin).
  - intros s. split; [reflexivity|]. split; [reflexivity|]. split; [|split; [|split]].
    + intros f p Hf Hp. split;
        [by apply service_charge_eq | by apply fee_final_eq].
    + intros pz sz Hprice Hp. exact (fee_final_plus_charge_int s pz sz Hprice Hp).
    + intros x q Hf Hp. exact (fee_sum_float s x q Hf Hp).
    + intros f p t Hf Hp Hrate Hs Hfin.
      exact (fee_sum_tolerance s f p t Hf Hp Hrate Hs Hfin).
Qed.

Lemma fee_relations_witness :
  (Transaction.service_charge (main_buy 200)
     = py_mul (PyFloat 5120) (PyFloat 0.00031999999999999997) /\
   Transaction.fee_final (main_buy 200)
     = (d ← py_sub (PyInt 1) (PyFloat 0.00031999999999999997);
        py_mul (PyFloat 5120) d)) /\
  (exists f n c,
     Transaction.fee plain_buy = Ok f /\
     Transaction.fee_final plain_buy = Ok n /\
     Transaction.service_charge plain_buy = Ok c /\ py_add n c = Ok f) /\
  (exists f n c,
     Transaction.fee plain_sell = Ok f /\
     Transaction.fee_final plain_sell = Ok n /\
     Transaction.service_charge plain_sell = Ok c /\ py_add n c = Ok f) /\
  (exists f n c,
     Transaction.fee whole_buy = Ok f /\
     Transaction.fee_final whole_buy = Ok n /\
     Transaction.service_charge whole_buy = Ok c /\ py_add n c = Ok f) /\
  (exists f n c,
     Transaction.fee whole_sell = Ok f /\
     Transaction.fee_final whole_sell = Ok n /\
     Transaction.service_charge whole_sell = Ok c /\ py_add n c = Ok f) /\
  fee_sum (main_buy 200)
    = Ok (PyFloat (5120 * (1 - 0.00031999999999999997)
                   + 5120 * 0.00031999999999999997)) /\
  fee_sum (main_sell 200)
    = Ok (PyFloat (7272 * (1 - 0.00082) + 7272 * 0.00082)) /\
  (Rabs (num_value (PyFloat 5120) - num_value (PyFloat 5120))
   <= fee_rel_tol * Rabs (num_value (PyFloat 5120)) + fee_abs_tol)%R /\
  (Rabs (num_value (PyFloat 7271.999999999999) - num_value (PyFloat 7272))
   <= fee_rel_tol * Rabs (num_value (PyFloat 7272)) + fee_abs_tol)%R /\
  (Rabs (num_value (PyInt 5000) - num_value (PyInt 5000))
   <= fee_rel_tol * Rabs (num_value (PyInt 5000)) + fee_abs_tol)%R.
Proof.
  destruct fee_relations as [Hbuy Hsell].
  destruct (Hbuy (main_buy 200)) as (_ & _ & Heq & _ & Hfloat_buy & Htol_buy).
  destruct (Hsell (main_sell 200)) as (_ & _ & _ & _ & Hfloat_sell & Htol_sell).
  destruct (Hbuy plain_buy) as (_ & _ & _ & Hplain_buy & _).
  destruct (Hsell plain_sell) as (_ & _ & _ & Hplain_sell & _).
  destruct (Hbuy whole_buy) as (_ & _ & _ & Hwhole_buy & _ & Htol_whole).
  destruct (Hsell whole_sell) as (_ & _ & _ & Hwhole_sell & _).
  split; [apply Heq; reflexivity|].
  split; [apply (Hplain_buy 25 0); reflexivity|].
  split; [apply (Hplain_sell 36 0); reflexivity|].
  split; [apply (Hwhole_buy 25 1); reflexivity|].
  split; [apply (Hwhole_sell 36 2); reflexivity|].
  split; [apply Hfloat_buy; reflexivity|].
  split; [apply Hfloat_sell; reflexivity|].
  split;
    [apply (Htol_buy (PyFloat 5120) (PyFloat 0.00031999999999999997)
                     (PyFloat 5120)); reflexivity|].
  split;
    [apply (Htol_sell (PyFloat 7272) (PyFloat 0.00082)
                      (PyFloat 7271.999999999999)); reflexivity|].
  apply (Htol_whole (PyInt 5000) (PyInt 1) (PyInt 5000)); reflexivity.
Defined.

(** C4, as stated, fails on floats. Exactly: for the sell of the scenario,
    [fee_final + service_charge] is 7271.999999999999 while [fee] is
    7272.0, and the two floats are different (also for [==]). Beyond any
    tolerance: with a commission of 1e17 the buy of the scenario has a
    [fee] of 5120.0, a [fee_final] of -5.12e20, a [service_charge] of
    5.12e20 and a sum of 0.0; and a buy of 10 at 1e308 in a stock that
    charges nothing has an infinite [fee] and a sum that is NaN. *)
Lemma fee_identity_float_counterexample :
  (Transaction.fee (main_sell 200) = Ok (PyFloat 7272.0) /\
   Transaction.fee_final (main_sell 200) = Ok (PyFloat 7266.036959999999) /\
   Transaction.service_charge (main_sell 200) = Ok (PyFloat 5.9630399999999995) /\
   py_add (PyFloat 7266.036959999999) (PyFloat 5.9630399999999995)
     = Ok (PyFloat 7271.999999999999) /\
   PyFloat 7271.999999999999 <> PyFloat 7272.0 /\
   PrimFloat.eqb 7271.999999999999 7272.0 = false) /\
  (Transaction.fee runaway_buy = Ok (PyFloat 5120) /\
   Transaction.service_percent runaway_buy = Ok (PyFloat 1e17) /\
   Transaction.fee_final runaway_buy = Ok (PyFloat (-5.12e20)) /\
   Transaction.service_charge runaway_buy = Ok (PyFloat 5.12e20) /\
   fee_sum runaway_buy = Ok (PyFloat 0) /\
   num_finite (PyFloat 0) = true /\
   num_value (PyFloat 0) = 0%R /\ num_value (PyFloat 5120) = 5120%R /\
   ~ (Rabs (num_value (PyFloat 0) - num_value (PyFloat 5120))
      <= fee_rel_tol * Rabs (num_value (PyFloat 5120)) + fee_abs_tol)%R) /\
  (Transaction.fee overflowing_buy = Ok (PyFloat infinity) /\
   Transaction.service_percent overflowing_buy = Ok (PyFloat 0) /\
   is_rate (PyFloat 0) = true /\
   Transaction.fee_final overflowing_buy = Ok (PyFloat infinity) /\
   Transaction.service_charge overflowing_buy = Ok (PyFloat nan) /\
   fee_sum overflowing_buy = Ok (PyFloat nan) /\
   PrimFloat.eqb nan infinity = false).
Proof.
  assert (num_value (PyFloat 5120) = 5120%R) as H5120.
  { cbn [num_value].
    change (Prim2SF 5120) with (S754_finite false 5629499534213120 (-40)).
    cbn [SF2R cond_Zopp]. rewrite powerRZ2_neg_numeral.
    change (2 ^ 40) with 1099511627776. field. }
  split; [|split].
  - do 4 (split; [reflexivity|]). split; [|reflexivity]. discriminate.
  - do 6 (split; [reflexivity|]). split; [reflexivity|].
    split; [exact H5120|]. rewrite H5120.
    change (num_value (PyFloat 0)) with 0%R.
    rewrite (Rabs_pos_eq 5120) by lra.
    intros Hle. apply Rabs_le_inv in Hle. tolerances. lra.
  - repeat split; reflexivity.
Qed.

(** ** The scenario of [__main__] *)

(** C7 (amended). In the scenario (commission 0.0003, stamp duty 0.0005,
    transfer fee 0.00002; buy of 200 at 25.6 under "2024-0205-10", then a
    sell of 200 at 36.36 against it), both calls return normally. The buy's
    [service_percent] is the float sum 0.0003 + 0.00002, which is
    0.00031999999999999997; its [fee] is 5120.0 and its [fee_final] is
    5120.0 * (1 - service_percent) = 5118.3616, which is also the float
    5120.0 * (1 - 0.00032). The sell's [service_percent] is 0.00082, its
    [fee] 7272.0 and its [fee_final] 7272.0 * (1 - 0.00082), which is
    7266.036959999999. After the sell, the recorded buy has [quantity_left] 0 and [empty] true. *)
Theorem main_scenario :
  snd main_after_buy = Ok tt /\
  snd main_after_sell = Ok tt /\
  Stock._tr_recorder (fst main_after_buy) !! 2024020510 = Some (main_buy 200) /\
  Transaction.service_percent (main_buy 200)
    = Ok (PyFloat 0.00031999999999999997) /\
  Transaction.fee (main_buy 200) = Ok (PyFloat 5120.0) /\
  Transaction.fee_final (main_buy 200)
    = Ok (PyFloat (5120.0 * (1 - 0.00031999999999999997))) /\
  Transaction.fee_final (main_buy 200) = Ok (PyFloat 5118.3616) /\
  Transaction.fee_final (main_buy 200)
    = Ok (PyFloat (5120.0 * (1 - 0.00032))) /\
  Transaction.service_percent (main_sell 200) = Ok (PyFloat 0.00082) /\
  Transaction.fee (main_sell 200) = Ok (PyFloat 7272.0) /\
  Transaction.fee_final (main_sell 200)
    = Ok (PyFloat (7272.0 * (1 - 0.00082))) /\
  Transaction.fee_final (main_sell 200) = Ok (PyFloat 7266.036959999999) /\
  exists b,
    Stock._tr_recorder (fst main_after_sell) !! 2024020510 = Some b /\
    BuyTransaction.super b = BuyTransaction.super (main_buy 200) /\
    BuyTransaction.sells b = [main_sell 200] /\
    BuyTransaction.empty b = true /\
    snd (BuyTransaction.quantity_left b) = 0 /\
    BuyTransaction.empty (fst (BuyTransaction.quantity_left b)) = true.
Proof.
  repeat (split; [by_evaluation|]).
  eexists. split; [by_evaluation|].
  repeat split.
Qed.

(** C7, as stated, fails in one place: the buy's [service_percent] is not
    the float 0.00032 (it is the float just below it). *)
Lemma main_scenario_counterexample :
  Transaction.service_percent (main_buy 200)
    = Ok (PyFloat 0.00031999999999999997) /\
  Transaction.service_percent (main_buy 200) <> Ok (PyFloat 0.00032) /\
  PrimFloat.eqb 0.00031999999999999997 0.00032 = false.
Proof.
  split; [reflexivity|]. split; [|reflexivity].
  discriminate.
Qed.

(** * Further properties *)

(** ** More on [BuyTransaction.sell] and [quantity_left] *)

(** X1. [sell] returns normally exactly when the sell's quantity is at most
    the buy's current [quantity_left]; whatever the outcome, the buy keeps
    its own attributes and its sell list is the old one followed by the
    new sell. *)
Theorem sell_returns_iff (b : BuyTransaction.t) (tr : SellTransaction.t) :
  (snd (BuyTransaction.sell b tr) = Ok tt <->
   SellTransaction.quantity tr <= snd (BuyTransaction.quantity_left b)) /\
  (forall e, snd (BuyTransaction.sell b tr) = Raise e ->
     e = AssertionError (Some (snd (BuyTransaction.quantity_left b)
                               - SellTransaction.quantity tr))) /\
  BuyTransaction.super (fst (BuyTransaction.sell b tr)) = BuyTransaction.super b /\
  BuyTransaction.sells (fst (BuyTransaction.sell b tr))
    = BuyTransaction.sells b ++ [tr].
Proof.
  rewrite sell_eq, quantity_left_eq. cbn [fst snd]. cbv zeta.
  destruct (Z.leb_spec 0 (BuyTransaction.quantity b
                          - sold (BuyTransaction.sells b)
                          - SellTransaction.quantity tr)) as [Hle|Hlt].
  - split; [split; [lia | done]|]. split; [discriminate|]. by split.
  - split; [split; [discriminate | lia]|].
    split; [by intros e [= <-]|]. by split.
Qed.

(** X2. After any call of [sell], returning or raising, the [empty] flag
    of the buy is true exactly when its [quantity_left] is 0; and reading
    [quantity_left] a second time gives the same value and leaves the buy
    as the first reading left it. *)
Theorem empty_flag_after_sell (b : BuyTransaction.t) (tr : SellTransaction.t) :
  (BuyTransaction.empty (fst (BuyTransaction.sell b tr)) = true <->
   snd (BuyTransaction.quantity_left (fst (BuyTransaction.sell b tr))) = 0) /\
  BuyTransaction.quantity_left (fst (BuyTransaction.quantity_left b))
    = BuyTransaction.quantity_left b.
Proof.
  split.
  - rewrite sell_eq. cbv zeta. rewrite quantity_left_eq.
    unfold BuyTransaction.quantity. cbn -[sold Z.sub Z.eqb].
    rewrite sold_snoc, Z.sub_add_distr. apply Z.eqb_eq.
  - rewrite !quantity_left_eq. unfold BuyTransaction.quantity.
    cbn -[sold Z.sub Z.eqb]. reflexivity.
Qed.

(** ** More on [Transaction.timing2id] *)

Lemma timing2id_Raise timing e :
  Transaction.timing2id timing = Raise e ->
  e = AssertionError None \/ e = ValueError.
Proof.
  unfold Transaction.timing2id.
  destruct (Nat.eqb (length (py_split "-" timing)) 3); simpl.
  - destruct (py_map py_int (py_split "-" timing)) as [zs|e'] eqn:Hmap;
      simpl; [discriminate|].
    intros [= <-]. right. by apply py_map_py_int_Raise in Hmap as [-> _].
  - intros [= <-]. by left.
Qed.

(** X3. An identifier is never negative: the components are split on the
    minus sign, so none of them is read as a negative number. *)
Theorem timing2id_nonneg (timing : string) (i : Z) :
  Transaction.timing2id timing = Ok i -> 0 <= i.
Proof.
  intros Hid. apply timing2id_Ok_inv in Hid as (Y & MD & S & Hc & ->).
  apply timing_components_nonneg in Hc as (? & ? & ?).
  change (10 ^ 6) with 1000000. change (10 ^ 2) with 100. lia.
Qed.

Lemma timing2id_nonneg_witness : 0 <= 2024020510.
Proof. apply (timing2id_nonneg "2024-0205-10"). reflexivity. Defined.

(** X4. Decoding: when the second component is below [10^4] and the third
    below [10^2], the three components are read back from the identifier
    by division: [Y = id / 10^6], [MD = (id mod 10^6) / 10^2],
    [S = id mod 10^2]. *)
Theorem timing2id_decode (timing : string) (Y MD S i : Z) :
  timing_components timing Y MD S ->
  MD < 10 ^ 4 -> S < 10 ^ 2 ->
  Transaction.timing2id timing = Ok i ->
  Y = i / 10 ^ 6 /\ MD = (i mod 10 ^ 6) / 10 ^ 2 /\ S = i mod 10 ^ 2.
Proof.
  intros Hc HMD HS Hid.
  rewrite (timing2id_components _ _ _ _ Hc) in Hid. injection Hid as <-.
  apply timing_components_nonneg in Hc as (? & ? & ?).
  revert HMD HS. change (10 ^ 6) with 1000000. change (10 ^ 4) with 10000.
  change (10 ^ 2) with 100. intros HMD HS.
  assert (Y = (Y * 1000000 + MD * 100 + S) / 1000000) as HY.
  { apply Z.div_unique with (r := MD * 100 + S); lia. }
  assert ((Y * 1000000 + MD * 100 + S) mod 1000000 = MD * 100 + S) as Hr.
  { symmetry. apply Z.mod_unique with (q := Y); lia. }
  split; [exact HY|]. rewrite Hr. split.
  - apply Z.div_unique with (r := S); lia.
  - apply Z.mod_unique with (q := Y * 10000 + MD); lia.
Qed.

Lemma timing2id_decode_witness :
  2024 = 2024020510 / 10 ^ 6 /\ 205 = (2024020510 mod 10 ^ 6) / 10 ^ 2 /\
  10 = 2024020510 mod 10 ^ 2.
Proof.
  apply (timing2id_decode "2024-0205-10" 2024 205 10 2024020510).
  - exists "2024"%string, "0205"%string, "10"%string. repeat split.
  - reflexivity.
  - reflexivity.
  - reflexivity.
Defined.

Lemma py_split_length sep s :
  length (py_split sep s) = S (count_char sep s).
Proof.
  induction s as [|c s IH]; simpl; [done|].
  destruct (Ascii.eqb c sep); simpl.
  - by rewrite IH.
  - destruct (py_split sep s) as [|w ws] eqn:E; simpl in *; [discriminate|].
    exact IH.
Qed.

(** X5. The assertion on the number of pieces fails exactly for the
    timings that do not hold exactly two minus signs: [timing2id] raises
    the [AssertionError] if and only if the count of ["-"] is not 2. *)
Theorem timing2id_two_dashes (timing : string) :
  Transaction.timing2id timing = Raise (AssertionError None) <->
  count_char "-" timing <> 2%nat.
Proof.
  pose proof (py_split_length "-" timing) as Hlen. split.
  - intros Hid Hcount.
    unfold Transaction.timing2id in Hid. rewrite Hlen, Hcount in Hid.
    simpl in Hid.
    destruct (py_map py_int (py_split "-" timing)) as [zs|e] eqn:Hmap;
      simpl in Hid; [discriminate|].
    apply py_map_py_int_Raise in Hmap as [-> _]. discriminate.
  - intros Hcount. apply timing2id_wrong_count. lia.
Qed.

Lemma is_digit_plain c :
  is_digit c = true ->
  is_space c = false /\ Ascii.eqb c "-"%char = false /\
  Ascii.eqb c "+"%char = false.
Proof.
  destruct c as [[] [] [] [] [] [] [] []]; try discriminate; by intros _.
Qed.

Lemma py_split_app_sep a rest :
  forallb is_digit (list_ascii_of_string a) = true ->
  py_split "-" (a +:+ String "-" rest) = a :: py_split "-" rest.
Proof.
  induction a as [|c a IH]; simpl; [done|].
  intros [Hc Ha]%andb_prop. apply is_digit_plain in Hc as (_ & -> & _).
  by rewrite (IH Ha).
Qed.

Lemma py_split_no_sep_string a :
  forallb is_digit (list_ascii_of_string a) = true -> py_split "-" a = [a].
Proof.
  induction a as [|c a IH]; simpl; [done|].
  intros [Hc Ha]%andb_prop. apply is_digit_plain in Hc as (_ & -> & _).
  by rewrite (IH Ha).
Qed.

Lemma lstrip_digit_first c l : is_digit c = true -> lstrip (c :: l) = c :: l.
Proof. intros Hc. simpl. by apply is_digit_plain in Hc as (-> & _). Qed.

Lemma strip_digits l : forallb is_digit l = true -> strip l = l.
Proof.
  intros Hl. unfold strip.
  assert (forall l', forallb is_digit l' = true -> lstrip l' = l') as Hls.
  { intros [|c l']; [done|]. intros [Hc _]%andb_prop.
    by apply lstrip_digit_first. }
  rewrite (Hls l Hl), Hls, rev_involutive; [done|].
  apply forallb_forall. intros c Hc%in_rev.
  by apply (proj1 (forallb_forall is_digit l) Hl).
Qed.

Lemma int_digits_all_digits l : forall acc,
  forallb is_digit l = true -> exists z, int_digits false acc l = Some z.
Proof.
  induction l as [|c l IH]; simpl; intros acc Hl; [by eexists|].
  apply andb_prop in Hl as [Hc Hl]. unfold is_digit in Hc.
  destruct (digit_value c) as [d|]; [|discriminate]. by apply IH.
Qed.

Lemma digit_count_all_digits l :
  forallb is_digit l = true -> digit_count l = length l.
Proof.
  induction l as [|c l IH]; simpl; [done|].
  intros [Hc Hl]%andb_prop. unfold is_digit in Hc.
  destruct (digit_value c); [|discriminate]. by rewrite (IH Hl).
Qed.

Lemma length_list_ascii s :
  length (list_ascii_of_string s) = String.length s.
Proof. induction s as [|c s IH]; simpl; [done | by rewrite IH]. Qed.

(** A non-empty string of digits is read by [int] exactly when it has no
    more digits than the limit. *)
Lemma py_int_all_digits s :
  all_digits s = true ->
  ((String.length s <= max_str_digits)%nat -> exists z, py_int s = Ok z) /\
  ((max_str_digits < String.length s)%nat -> py_int s = Raise ValueError).
Proof.
  intros Hs. unfold py_int.
  assert (forallb is_digit (list_ascii_of_string s) = true) as Hl
    by (unfold all_digits in Hs; by destruct s).
  rewrite (strip_digits _ Hl), (digit_count_all_digits _ Hl),
    length_list_ascii.
  destruct s as [|c s]; [discriminate|]. cbn [list_ascii_of_string] in *.
  cbn [forallb] in Hl. apply andb_prop in Hl as [Hc Hl].
  pose proof (is_digit_plain _ Hc) as (_ & -> & ->).
  unfold is_digit in Hc. cbn [int_literal].
  destruct (digit_value c) as [d|]; [|discriminate].
  destruct (int_digits_all_digits _ d Hl) as [z ->]. split.
  - intros Hle. exists z.
    by destruct (Nat.ltb_spec max_str_digits (String.length (String c s)));
      [lia|].
  - intros Hlt.
    by destruct (Nat.ltb_spec max_str_digits (String.length (String c s)));
      [|lia].
Qed.

Lemma all_digits_forallb s :
  all_digits s = true -> forallb is_digit (list_ascii_of_string s) = true.
Proof. unfold all_digits. by destruct s. Qed.

(** X6. A timing written as three non-empty strings of decimal digits
    joined by minus signs splits into those three strings. It is accepted
    when none of them has more digits than the limit of [int]: each is
    read by [int], and [timing2id] returns the identifier built from the
    three numbers. It is rejected with a [ValueError] when one of them has
    more. *)
Theorem timing2id_digits (a b c : string) :
  all_digits a = true -> all_digits b = true -> all_digits c = true ->
  py_split "-" (a +:+ "-" +:+ b +:+ "-" +:+ c) = [a; b; c] /\
  ((String.length a <= max_str_digits)%nat ->
   (String.length b <= max_str_digits)%nat ->
   (String.length c <= max_str_digits)%nat ->
   exists Y MD S,
     py_int a = Ok Y /\ py_int b = Ok MD /\ py_int c = Ok S /\
     Transaction.timing2id (a +:+ "-" +:+ b +:+ "-" +:+ c)
       = Ok (Y * 10 ^ 6 + MD * 10 ^ 2 + S)) /\
  ((max_str_digits < String.length a)%nat \/
   (max_str_digits < String.length b)%nat \/
   (max_str_digits < String.length c)%nat ->
   Transaction.timing2id (a +:+ "-" +:+ b +:+ "-" +:+ c) = Raise ValueError).
Proof.
  intros Ha Hb Hc.
  assert (py_split "-" (a +:+ "-" +:+ b +:+ "-" +:+ c) = [a; b; c]) as Hsplit.
  { change ("-" +:+ b +:+ "-" +:+ c) with (String "-" (b +:+ "-" +:+ c)).
    rewrite py_split_app_sep by by apply all_digits_forallb.
    change ("-" +:+ c) with (String "-" c).
    rewrite py_split_app_sep by by apply all_digits_forallb.
    by rewrite py_split_no_sep_string by by apply all_digits_forallb. }
  split; [exact Hsplit|]. split.
  - intros Hla Hlb Hlc.
    destruct (proj1 (py_int_all_digits _ Ha) Hla) as [Y HY].
    destruct (proj1 (py_int_all_digits _ Hb) Hlb) as [MD HMD].
    destruct (proj1 (py_int_all_digits _ Hc) Hlc) as [S HS].
    exists Y, MD, S. do 3 (split; [done|]).
    apply timing2id_components. by exists a, b, c.
  - intros Hlong.
    assert (exists w, w ∈ [a; b; c] /\ py_int w = Raise ValueError)
      as (w & Hin & Hw).
    { destruct Hlong as [Hl|[Hl|Hl]].
      - exists a. split; [set_solver | by apply py_int_all_digits].
      - exists b. split; [set_solver | by apply py_int_all_digits].
      - exists c. split; [set_solver | by apply py_int_all_digits]. }
    apply (timing2id_not_int _ w); rewrite ?Hsplit; done.
Qed.

Lemma timing2id_digits_witness :
  exists Y MD S,
    py_int "2024" = Ok Y /\ py_int "0205" = Ok MD /\ py_int "10" = Ok S /\
    Transaction.timing2id "2024-0205-10" = Ok (Y * 10 ^ 6 + MD * 10 ^ 2 + S).
Proof.
  apply (timing2id_digits "2024" "0205" "10");
    try reflexivity; unfold max_str_digits; simpl; lia.
Defined.

(** ** More on [Stock.buy] and [Stock.sell] *)

Lemma Stock_buy_eq self timing price quantity :
  Stock.buy self timing price quantity =
  match Transaction.timing2id timing with
  | Raise e => (self, Raise e)
  | Ok key =>
      ({| Stock.attrs := Stock.attrs self;
          Stock._tr_recorder :=
            <[key := {| BuyTransaction.super :=
                          {| Transaction.stock := Stock.attrs self;
                             Transaction.timing := timing;
                             Transaction.id := key;
                             Transaction.price := price;
                             Transaction.quantity := quantity |};
                        BuyTransaction.empty := false;
                        BuyTransaction.sells := [] |}]>
              (Stock._tr_recorder self) |}, Ok tt)
  end.
Proof.
  unfold Stock.buy. rewrite BuyTransaction_init_eq, Transaction_init_eq.
  by destruct (Transaction.timing2id timing).
Qed.

Lemma SellTransaction_init_Ok_inv stock timing price quantity tr :
  SellTransaction.init stock timing price quantity = Ok tr ->
  exists key,
    Transaction.timing2id timing = Ok key /\
    tr = {| SellTransaction.super :=
              {| Transaction.stock := stock; Transaction.timing := timing;
                 Transaction.id := key; Transaction.price := price;
                 Transaction.quantity := quantity |} |}.
Proof.
  rewrite SellTransaction_init_eq, Transaction_init_eq.
  destruct (Transaction.timing2id timing) as [key|e]; [|discriminate].
  intros [= <-]. by exists key.
Qed.

(** The only entry [Stock.sell] can touch is the one under the identifier
    of [buy_timing], and only when it exists. *)
Lemma Stock_sell_cases self buy_timing timing price quantity :
  fst (Stock.sell self buy_timing timing price quantity) = self \/
  exists tr key trans_buy,
    SellTransaction.init (Stock.attrs self) timing price quantity = Ok tr /\
    Transaction.timing2id buy_timing = Ok key /\
    Stock._tr_recorder self !! key = Some trans_buy /\
    Stock.sell self buy_timing timing price quantity =
      ({| Stock.attrs := Stock.attrs self;
          Stock._tr_recorder :=
            <[key := fst (BuyTransaction.sell trans_buy tr)]>
              (Stock._tr_recorder self) |},
       snd (BuyTransaction.sell trans_buy tr)).
Proof.
  destruct (SellTransaction.init (Stock.attrs self) timing price quantity)
    as [tr|e] eqn:Htr; [|left; unfold Stock.sell; by rewrite Htr].
  destruct (Transaction.timing2id buy_timing) as [key|e] eqn:Hkey;
    [|left; unfold Stock.sell; by rewrite Htr, Hkey].
  destruct (Stock._tr_recorder self !! key) as [trans_buy|] eqn:Hbuy;
    [|left; unfold Stock.sell; by rewrite Htr, Hkey, Hbuy].
  right. exists tr, key, trans_buy. repeat split; try done.
  by apply Stock_sell_found.
Qed.

(** X7. [Stock.buy] never changes the attributes of the stock. It fails
    only when [timing2id] does, with the same exception and the stock
    unchanged; price and quantity are never a reason to fail. When the
    timing has an identifier, the call returns normally, the newly
    constructed buy is recorded under that identifier, the identifier is
    added to the keys, and no other entry is touched. *)
Theorem Stock_buy_outcome (self : Stock.t) (timing : string) (price : pynum)
    (quantity : Z) :
  Stock.attrs (fst (Stock.buy self timing price quantity)) = Stock.attrs self /\
  (forall e,
     Transaction.timing2id timing = Raise e ->
     Stock.buy self timing price quantity = (self, Raise e)) /\
  (forall key,
     Transaction.timing2id timing = Ok key ->
     snd (Stock.buy self timing price quantity) = Ok tt /\
     (exists b,
        BuyTransaction.init (Stock.attrs self) timing price quantity = Ok b /\
        Stock._tr_recorder (fst (Stock.buy self timing price quantity)) !! key
          = Some b) /\
     dom (Stock._tr_recorder (fst (Stock.buy self timing price quantity)))
       = {[key]} ∪ dom (Stock._tr_recorder self) /\
     (forall key', key' <> key ->
        Stock._tr_recorder (fst (Stock.buy self timing price quantity)) !! key'
          = Stock._tr_recorder self !! key')).
Proof.
  rewrite Stock_buy_eq.
  destruct (Transaction.timing2id timing) as [k|e] eqn:Hid.
  - split; [done|]. split; [discriminate|].
    intros key [= <-]. cbn [fst snd Stock._tr_recorder].
    split; [done|]. split.
    + eexists. split; [by apply BuyTransaction_init_Ok|].
      apply lookup_insert_eq.
    + split; [apply dom_insert_L|].
      intros key' Hne. by apply lookup_insert_ne.
  - split; [done|]. split; [by intros e' [= <-]|]. discriminate.
Qed.

Lemma Stock_buy_outcome_witness :
  Stock.buy main_stock "2024-0205" (PyFloat 25.6) 200
    = (main_stock, Raise (AssertionError None)) /\
  snd (Stock.buy main_stock "2024-0205-10" (PyFloat 25.6) (-200)) = Ok tt.
Proof.
  split.
  - apply (Stock_buy_outcome main_stock "2024-0205" (PyFloat 25.6) 200).
    reflexivity.
  - apply (proj2 (proj2 (Stock_buy_outcome main_stock "2024-0205-10"
                           (PyFloat 25.6) (-200))) 2024020510).
    reflexivity.
Defined.

(** X8. [Stock.sell] never changes the attributes of the stock nor the set
    of recorded identifiers, whatever its outcome, and it leaves every
    entry other than the one under the identifier of [buy_timing] as it
    was. *)
Theorem Stock_sell_frame (self : Stock.t) (buy_timing timing : string)
    (price : pynum) (quantity : Z) :
  Stock.attrs (fst (Stock.sell self buy_timing timing price quantity))
    = Stock.attrs self /\
  dom (Stock._tr_recorder (fst (Stock.sell self buy_timing timing price quantity)))
    = dom (Stock._tr_recorder self) /\
  (forall key,
     Transaction.timing2id buy_timing <> Ok key ->
     Stock._tr_recorder (fst (Stock.sell self buy_timing timing price quantity))
       !! key = Stock._tr_recorder self !! key).
Proof.
  destruct (Stock_sell_cases self buy_timing timing price quantity)
    as [->|(tr & k & b & _ & Hkey & Hbuy & ->)]; [done|].
  cbn [fst Stock.attrs Stock._tr_recorder]. split; [done|]. split.
  - by apply dom_insert_lookup_L.
  - intros key Hne. apply lookup_insert_ne. congruence.
Qed.

(** X9. At the level of the stock a sell rejected for its quantity is
    recorded all the same: when the buy exists and the sell's quantity
    exceeds its [quantity_left], [Stock.sell] raises the [AssertionError]
    and the entry of the buy in the ledger now ends with the rejected
    sell. *)
Theorem Stock_sell_exceeding (self : Stock.t) (buy_timing timing : string)
    (price : pynum) (quantity : Z) (tr : SellTransaction.t) (key : Z)
    (b : BuyTransaction.t) :
  SellTransaction.init (Stock.attrs self) timing price quantity = Ok tr ->
  Transaction.timing2id buy_timing = Ok key ->
  Stock._tr_recorder self !! key = Some b ->
  snd (BuyTransaction.quantity_left b) < quantity ->
  snd (Stock.sell self buy_timing timing price quantity)
    = Raise (AssertionError (Some (snd (BuyTransaction.quantity_left b)
                                   - quantity))) /\
  exists b',
    Stock._tr_recorder (fst (Stock.sell self buy_timing timing price quantity))
      !! key = Some b' /\
    BuyTransaction.sells b' = BuyTransaction.sells b ++ [tr] /\
    snd (BuyTransaction.quantity_left b') < 0.
Proof.
  intros Htr Hkey Hbuy Hlt.
  rewrite (Stock_sell_found _ _ _ _ _ _ _ _ Htr Hkey Hbuy).
  apply SellTransaction_init_Ok_inv in Htr as (k' & _ & ->).
  rewrite sell_eq. rewrite quantity_left_eq in Hlt |- *.
  cbn [fst snd Stock._tr_recorder] in *. cbv zeta.
  unfold SellTransaction.quantity at 1 2. cbn [SellTransaction.super Transaction.quantity].
  destruct (Z.leb_spec 0 (BuyTransaction.quantity b
                          - sold (BuyTransaction.sells b) - quantity))
    as [Hle|_]; [lia|].
  split; [done|]. eexists. split; [apply lookup_insert_eq|].
  split; [done|]. rewrite quantity_left_eq. unfold BuyTransaction.quantity in *.
  cbn -[sold Z.sub]. rewrite sold_snoc. unfold SellTransaction.quantity at 1.
  cbn -[sold Z.sub]. lia.
Qed.

Lemma Stock_sell_exceeding_witness :
  snd (Stock.sell (fst main_after_buy) "2024-0205-10" "2024-0312-14"
                  (PyFloat 36.36) 201)
    = Raise (AssertionError (Some (-1))) /\
  exists b',
    Stock._tr_recorder
      (fst (Stock.sell (fst main_after_buy) "2024-0205-10" "2024-0312-14"
                       (PyFloat 36.36) 201)) !! 2024020510 = Some b' /\
    BuyTransaction.sells b' = [main_sell 201] /\
    snd (BuyTransaction.quantity_left b') < 0.
Proof.
  apply (Stock_sell_exceeding (fst main_after_buy) "2024-0205-10"
           "2024-0312-14" (PyFloat 36.36) 201 (main_sell 201) 2024020510
           (main_buy 200)).
  - reflexivity.
  - reflexivity.
  - vm_compute. reflexivity.
  - reflexivity.
Defined.

(** X10. Insert then look up: a sell against a buy that [Stock.buy] has
    just recorded always finds it (no [KeyError]); it returns normally
    exactly when its quantity is at most the buy's quantity, and the entry
    then holds the buy with that one sell. *)
Theorem buy_then_sell (self : Stock.t) (buy_timing : string) (price : pynum)
    (quantity : Z) (timing : string) (sell_price : pynum) (sell_quantity : Z)
    (key : Z) (tr : SellTransaction.t) :
  Transaction.timing2id buy_timing = Ok key ->
  SellTransaction.init (Stock.attrs self) timing sell_price sell_quantity
    = Ok tr ->
  snd (Stock.sell (fst (Stock.buy self buy_timing price quantity))
                  buy_timing timing sell_price sell_quantity)
    = (if sell_quantity <=? quantity then Ok tt
       else Raise (AssertionError (Some (quantity - sell_quantity)))) /\
  exists b',
    Stock._tr_recorder
      (fst (Stock.sell (fst (Stock.buy self buy_timing price quantity))
                       buy_timing timing sell_price sell_quantity)) !! key
      = Some b' /\
    BuyTransaction.quantity b' = quantity /\
    BuyTransaction.sells b' = [tr].
Proof.
  intros Hkey Htr. rewrite Stock_buy_eq, Hkey. cbn [fst].
  match goal with
  | |- context [Stock.sell ?s _ _ _ _] =>
      rewrite (Stock_sell_found s buy_timing timing sell_price sell_quantity
                 tr key _ Htr Hkey (lookup_insert_eq _ _ _))
  end.
  apply SellTransaction_init_Ok_inv in Htr as (k' & _ & ->).
  rewrite sell_eq. cbn [fst snd Stock._tr_recorder]. cbv zeta.
  unfold BuyTransaction.quantity, SellTransaction.quantity, sold.
  cbn [BuyTransaction.super BuyTransaction.sells SellTransaction.super
       Transaction.quantity map fold_right].
  replace (quantity - 0 - sell_quantity) with (quantity - sell_quantity) by lia.
  split.
  - destruct (Z.leb_spec 0 (quantity - sell_quantity)),
             (Z.leb_spec sell_quantity quantity); try lia; done.
  - eexists. split; [apply lookup_insert_eq|]. by split.
Qed.

Lemma buy_then_sell_witness :
  snd (Stock.sell (fst (Stock.buy main_stock "2024-0205-10" (PyFloat 25.6) 200))
                  "2024-0205-10" "2024-0312-14" (PyFloat 36.36) 200)
    = Ok tt /\
  exists b',
    Stock._tr_recorder
      (fst (Stock.sell
              (fst (Stock.buy main_stock "2024-0205-10" (PyFloat 25.6) 200))
              "2024-0205-10" "2024-0312-14" (PyFloat 36.36) 200))
      !! 2024020510 = Some b' /\
    BuyTransaction.quantity b' = 200 /\
    BuyTransaction.sells b' = [main_sell 200].
Proof.
  apply (buy_then_sell main_stock "2024-0205-10" (PyFloat 25.6) 200
           "2024-0312-14" (PyFloat 36.36) 200 2024020510 (main_sell 200));
    reflexivity.
Defined.

(** ** Invariants of the ledger *)

Lemma ledger_ok_buy self timing price quantity :
  ledger_ok self -> ledger_ok (fst (Stock.buy self timing price quantity)).
Proof.
  intros Hok. rewrite Stock_buy_eq.
  destruct (Transaction.timing2id timing) as [k|e]; [|exact Hok].
  intros key b. cbn [fst Stock._tr_recorder].
  destruct (decide (k = key)) as [->|Hne].
  - rewrite lookup_insert_eq. intros [= <-]. unfold entry_ok. cbn.
    repeat split; try done. intros tr Htr. by apply not_elem_of_nil in Htr.
  - rewrite lookup_insert_ne by done. apply Hok.
Qed.

Lemma ledger_ok_sell self buy_timing timing price quantity :
  ledger_ok self ->
  ledger_ok (fst (Stock.sell self buy_timing timing price quantity)).
Proof.
  intros Hok.
  destruct (Stock_sell_cases self buy_timing timing price quantity)
    as [->|(tr & k & b & Htr & _ & Hbuy & ->)]; [exact Hok|].
  intros key b'. cbn [fst Stock._tr_recorder].
  destruct (decide (k = key)) as [->|Hne].
  - rewrite lookup_insert_eq. intros [= <-].
    destruct (Hok _ _ Hbuy) as (Hid & Hstock & Hsells & _).
    apply SellTransaction_init_Ok_inv in Htr as (k' & _ & ->).
    rewrite sell_eq. cbv zeta. unfold entry_ok. cbn [fst].
    rewrite quantity_left_eq. unfold BuyTransaction.quantity.
    cbn -[sold Z.sub Z.eqb]. rewrite sold_snoc.
    split; [done|]. split; [done|]. split.
    + intros tr [Htr|Htr]%elem_of_app; [by apply Hsells|].
      apply list_elem_of_singleton in Htr. by subst tr.
    + intros _. unfold SellTransaction.quantity. cbn -[sold Z.sub Z.eqb].
      f_equal. lia.
  - rewrite lookup_insert_ne by done. apply Hok.
Qed.

Lemma ledger_ok_after_calls cs : forall stock,
  ledger_ok stock -> ledger_ok (after_calls stock cs).
Proof.
  unfold after_calls.
  induction cs as [|c cs IH]; simpl; intros stock Hok; [exact Hok|].
  apply IH. destruct c; simpl;
    [by apply ledger_ok_buy | by apply ledger_ok_sell].
Qed.

(** X11. Whatever calls of [buy] and [sell] are made on a new stock,
    returning or raising: every recorded buy is stored under its own
    identifier, it and each of its sells refer to this stock's attributes,
    and once a buy has a sell its [empty] flag tells exactly whether its
    [quantity_left] is 0. *)
Theorem ledger_ok_reachable (name : string) (id : Z)
    (commission stamp_duty transfer_fee : pynum) (cs : list call) :
  ledger_ok (after_calls
               (Stock.init name id commission stamp_duty transfer_fee) cs).
Proof.
  apply ledger_ok_after_calls. intros key b Hb. simpl in Hb.
  by rewrite lookup_empty in Hb.
Qed.

Lemma ledger_sound_buy self timing price quantity :
  ledger_sound self -> ledger_sound (fst (Stock.buy self timing price quantity)).
Proof.
  intros Hok. rewrite Stock_buy_eq.
  destruct (Transaction.timing2id timing) as [k|e]; [|exact Hok].
  intros key b. cbn [fst Stock._tr_recorder].
  destruct (decide (k = key)) as [->|Hne].
  - rewrite lookup_insert_eq. by intros [= <-].
  - rewrite lookup_insert_ne by done. apply Hok.
Qed.

Lemma ledger_sound_sell self buy_timing timing price quantity :
  ledger_sound self ->
  snd (Stock.sell self buy_timing timing price quantity) = Ok tt ->
  ledger_sound (fst (Stock.sell self buy_timing timing price quantity)).
Proof.
  intros Hok.
  destruct (Stock_sell_cases self buy_timing timing price quantity)
    as [->|(tr & k & b & _ & _ & Hbuy & ->)]; [done|].
  cbn [fst snd]. intros Hret key b'. cbn [Stock._tr_recorder].
  destruct (decide (k = key)) as [->|Hne].
  - rewrite lookup_insert_eq. intros [= <-] _.
    eapply sell_Ok_inv. rewrite <- Hret. apply surjective_pairing.
  - rewrite lookup_insert_ne by done. apply Hok.
Qed.

Lemma ledger_sound_after_calls cs : forall stock,
  ledger_sound stock -> calls_return stock cs ->
  ledger_sound (after_calls stock cs).
Proof.
  unfold after_calls.
  induction cs as [|c cs IH]; simpl; intros stock Hok Hret; [exact Hok|].
  destruct Hret as [Hc Hret]. apply IH; [|exact Hret].
  destruct c; simpl in *;
    [by apply ledger_sound_buy | by apply ledger_sound_sell].
Qed.

(** X12. In a stock built from a new one by calls of [buy] and [sell] that
    all returned normally, no recorded buy with at least one sell is
    over-sold: its [quantity_left] is not negative. *)
Theorem ledger_sound_reachable (name : string) (id : Z)
    (commission stamp_duty transfer_fee : pynum) (cs : list call) :
  calls_return (Stock.init name id commission stamp_duty transfer_fee) cs ->
  ledger_sound (after_calls
                  (Stock.init name id commission stamp_duty transfer_fee) cs).
Proof.
  apply ledger_sound_after_calls. intros key b Hb. simpl in Hb.
  by rewrite lookup_empty in Hb.
Qed.

Lemma ledger_sound_reachable_witness :
  ledger_sound
    (after_calls
       (Stock.init "ABC" 30063 (PyFloat 0.0003) (PyFloat 0.0005)
                   (PyFloat 0.00002))
       [CallBuy "2024-0205-10" (PyFloat 25.6) 200;
        CallSell "2024-0205-10" "2024-0312-14" (PyFloat 36.36) 200]).
Proof.
  apply ledger_sound_reachable. simpl.
  split; [reflexivity|]. split; [vm_compute; reflexivity | exact I].
Defined.

(** ** [StockManager.add_database] *)

Lemma Stock_buy_attrs self timing price quantity :
  Stock.attrs (fst (Stock.buy self timing price quantity)) = Stock.attrs self.
Proof. rewrite Stock_buy_eq. by destruct (Transaction.timing2id timing). Qed.

Lemma Stock_sell_attrs self buy_timing timing price quantity :
  Stock.attrs (fst (Stock.sell self buy_timing timing price quantity))
    = Stock.attrs self.
Proof.
  by destruct (Stock_sell_cases self buy_timing timing price quantity)
    as [->|(tr & k & b & _ & _ & _ & ->)].
Qed.

Lemma Stock_sell_dom self buy_timing timing price quantity :
  dom (Stock._tr_recorder (fst (Stock.sell self buy_timing timing price quantity)))
    = dom (Stock._tr_recorder self).
Proof.
  destruct (Stock_sell_cases self buy_timing timing price quantity)
    as [->|(tr & k & b & _ & _ & Hbuy & ->)]; [done|].
  cbn [fst Stock._tr_recorder]. by apply dom_insert_lookup_L.
Qed.

Lemma Stock_buy_Ok_inv self timing price quantity :
  snd (Stock.buy self timing price quantity) = Ok tt ->
  exists key,
    Transaction.timing2id timing = Ok key /\
    dom (Stock._tr_recorder (fst (Stock.buy self timing price quantity)))
      = {[key]} ∪ dom (Stock._tr_recorder self).
Proof.
  rewrite Stock_buy_eq.
  destruct (Transaction.timing2id timing) as [k|e]; [|discriminate].
  intros _. exists k. split; [done|]. apply dom_insert_L.
Qed.

Lemma Stock_buy_Raise self timing price quantity e :
  snd (Stock.buy self timing price quantity) = Raise e -> format_or_quantity e.
Proof.
  rewrite Stock_buy_eq.
  destruct (Transaction.timing2id timing) as [k|e'] eqn:Hid; [discriminate|].
  intros [= <-]. destruct (timing2id_Raise _ _ Hid) as [-> | ->];
    [left; by eexists | by right].
Qed.

Lemma Stock_sell_Raise self buy_timing timing price quantity key e :
  Transaction.timing2id buy_timing = Ok key ->
  key ∈ dom (Stock._tr_recorder self) ->
  snd (Stock.sell self buy_timing timing price quantity) = Raise e ->
  format_or_quantity e.
Proof.
  intros Hkey [b Hb]%elem_of_dom. unfold Stock.sell.
  rewrite SellTransaction_init_eq, Transaction_init_eq.
  destruct (Transaction.timing2id timing) as [k|e'] eqn:Hid.
  - rewrite Hkey, Hb, sell_eq. cbv zeta. cbn [snd].
    destruct (0 <=? _); [discriminate|]. intros [= <-]. left. by eexists.
  - intros [= <-]. destruct (timing2id_Raise _ _ Hid) as [-> | ->];
      [left; by eexists | by right].
Qed.

Lemma sell_loop_attrs sells : forall stock buy_timing,
  Stock.attrs (fst (StockManager.sell_loop stock buy_timing sells))
    = Stock.attrs stock.
Proof.
  induction sells as [|s sells IH]; intros stock buy_timing; [done|].
  simpl.
  pose proof (Stock_sell_attrs stock buy_timing (StockManager.sell_timing s)
                (StockManager.sell_price s) (StockManager.sell_quantity s)) as Ha.
  destruct (Stock.sell stock buy_timing _ _ _) as [stock' [ [] | e ] ];
    simpl in *; [|done]. by rewrite IH.
Qed.

Lemma sell_loop_dom sells : forall stock buy_timing,
  dom (Stock._tr_recorder (fst (StockManager.sell_loop stock buy_timing sells)))
    = dom (Stock._tr_recorder stock).
Proof.
  induction sells as [|s sells IH]; intros stock buy_timing; [done|].
  simpl.
  pose proof (Stock_sell_dom stock buy_timing (StockManager.sell_timing s)
                (StockManager.sell_price s) (StockManager.sell_quantity s)) as Hd.
  destruct (Stock.sell stock buy_timing _ _ _) as [stock' [ [] | e ] ];
    simpl in *; [|done]. by rewrite IH.
Qed.

Lemma sell_loop_Raise sells : forall stock buy_timing key e,
  Transaction.timing2id buy_timing = Ok key ->
  key ∈ dom (Stock._tr_recorder stock) ->
  snd (StockManager.sell_loop stock buy_timing sells) = Raise e ->
  format_or_quantity e.
Proof.
  induction sells as [|s sells IH]; intros stock buy_timing key e Hkey Hin;
    [discriminate|].
  simpl.
  pose proof (Stock_sell_dom stock buy_timing (StockManager.sell_timing s)
                (StockManager.sell_price s) (StockManager.sell_quantity s)) as Hd.
  pose proof (Stock_sell_Raise stock buy_timing (StockManager.sell_timing s)
                (StockManager.sell_price s) (StockManager.sell_quantity s)
                key) as He.
  destruct (Stock.sell stock buy_timing _ _ _) as [stock' [ [] | e' ] ];
    simpl in *.
  - apply (IH _ _ key); [done|]. by rewrite Hd.
  - intros [= <-]. by apply He.
Qed.

Lemma record_loop_attrs records : forall stock,
  Stock.attrs (fst (StockManager.record_loop stock records)) = Stock.attrs stock.
Proof.
  induction records as [|r records IH]; intros stock; [done|].
  simpl.
  pose proof (Stock_buy_attrs stock (StockManager.timing r)
                (StockManager.price r) (StockManager.quantity r)) as Ha.
  destruct (Stock.buy stock _ _ _) as [stock1 [ [] | e ] ]; simpl in *; [|done].
  pose proof (sell_loop_attrs (StockManager.sell r) stock1
                (StockManager.timing r)) as Hb.
  destruct (StockManager.sell_loop stock1 _ _) as [stock2 [ [] | e ] ];
    simpl in *; [|congruence].
  rewrite IH. congruence.
Qed.

Lemma record_loop_Raise records : forall stock e,
  snd (StockManager.record_loop stock records) = Raise e ->
  format_or_quantity e.
Proof.
  induction records as [|r records IH]; intros stock e; [discriminate|].
  simpl.
  pose proof (Stock_buy_Raise stock (StockManager.timing r)
                (StockManager.price r) (StockManager.quantity r)) as He.
  pose proof (Stock_buy_Ok_inv stock (StockManager.timing r)
                (StockManager.price r) (StockManager.quantity r)) as Hk.
  destruct (Stock.buy stock _ _ _) as [stock1 [ [] | e1 ] ]; simpl in *.
  - destruct (Hk eq_refl) as (key & Hkey & Hdom).
    pose proof (sell_loop_Raise (StockManager.sell r) stock1
                  (StockManager.timing r) key) as Hs.
    destruct (StockManager.sell_loop stock1 _ _) as [stock2 [ [] | e2 ] ];
      simpl in *.
    + apply IH.
    + intros [= <-]. apply Hs; [done| |done]. rewrite Hdom.
      apply elem_of_union. left. by apply elem_of_singleton.
  - intros [= <-]. by apply He.
Qed.

(** X13. During a load the look-up [self._tr_recorder[...]] of
    [Stock.sell] never fails: each sell is recorded against the timing of
    the buy that was recorded just before it, so the buy is always found,
    and [add_database] never raises the [KeyError] of a missing buy
    identifier. *)
Theorem add_database_errors (self : StockManager.t)
    (db : StockManager.database) (e : exn) :
  snd (StockManager.add_database self db) = Raise e ->
  forall key, e <> KeyError key.
Proof.
  unfold StockManager.add_database.
  pose proof (record_loop_Raise (StockManager.record db)
                (Stock.init (StockManager.name db) (StockManager.id db)
                   (StockManager.commission db) (StockManager.stamp_duty db)
                   (StockManager.transfer_fee db)) e) as He.
  destruct (StockManager.record_loop _ _) as [stock r]. simpl in *.
  intros Hr. specialize (He Hr).
  intros key ->. destruct He as [[msg [=]]|[=]].
Qed.

Lemma add_database_errors_witness :
  snd (StockManager.add_database StockManager.init oversold_db)
    = Raise (AssertionError (Some (-1))) /\
  AssertionError (Some (-1)) <> KeyError 2024020510.
Proof.
  assert (snd (StockManager.add_database StockManager.init oversold_db)
          = Raise (AssertionError (Some (-1)))) as Hr
    by (vm_compute; reflexivity).
  split; [exact Hr|].
  exact (add_database_errors StockManager.init oversold_db _ Hr 2024020510).
Defined.

(** X14. Whatever the outcome of the load, [add_database] leaves in the
    registry, under the name of the record, a stock with the attributes of
    the record (a stock registered before under that name is replaced,
    also when the load fails), and no entry under another name is
    touched. *)
Theorem add_database_registry (self : StockManager.t)
    (db : StockManager.database) :
  (exists stock,
     StockManager.stocks (fst (StockManager.add_database self db))
       !! StockManager.name db = Some stock /\
     Stock.attrs stock =
       {| StockAttrs.id := StockManager.id db;
          StockAttrs.name := StockManager.name db;
          StockAttrs.commission := StockManager.commission db;
          StockAttrs.stamp_duty := StockManager.stamp_duty db;
          StockAttrs.transfer_fee := StockManager.transfer_fee db |}) /\
  (forall name, name <> StockManager.name db ->
     StockManager.stocks (fst (StockManager.add_database self db)) !! name
       = StockManager.stocks self !! name).
Proof.
  unfold StockManager.add_database.
  pose proof (record_loop_attrs (StockManager.record db)
                (Stock.init (StockManager.name db) (StockManager.id db)
                   (StockManager.commission db) (StockManager.stamp_duty db)
                   (StockManager.transfer_fee db))) as Ha.
  destruct (StockManager.record_loop _ _) as [stock r]. simpl in *. split.
  - exists stock. split; [apply lookup_insert_eq | exact Ha].
  - intros name Hne. by apply lookup_insert_ne.
Qed.

Lemma record_loop_dom records : forall stock key,
  snd (StockManager.record_loop stock records) = Ok tt ->
  key ∈ dom (Stock._tr_recorder (fst (StockManager.record_loop stock records)))
  <-> key ∈ dom (Stock._tr_recorder stock) \/
      exists r, r ∈ records /\
                Transaction.timing2id (StockManager.timing r) = Ok key.
Proof.
  induction records as [|r records IH]; intros stock key.
  - simpl. intros _. split; [by left|]. intros [?|(r & Hr & _)]; [done|].
    by apply not_elem_of_nil in Hr.
  - simpl.
    pose proof (Stock_buy_Ok_inv stock (StockManager.timing r)
                  (StockManager.price r) (StockManager.quantity r)) as Hk.
    destruct (Stock.buy stock _ _ _) as [stock1 [ [] | e1 ] ]; simpl in *;
      [|discriminate].
    destruct (Hk eq_refl) as (k & Hkey & Hdom).
    pose proof (sell_loop_dom (StockManager.sell r) stock1
                  (StockManager.timing r)) as Hs.
    destruct (StockManager.sell_loop stock1 _ _) as [stock2 [ [] | e2 ] ];
      simpl in *; [|discriminate].
    intros Hret. rewrite (IH _ _ Hret), Hs, Hdom, elem_of_union,
      elem_of_singleton. split.
    + intros [[->|?]|(r' & Hr' & Hid)].
      * right. exists r. split; [left | done].
      * by left.
      * right. exists r'. split; [by right | done].
    + intros [?|(r' & [->|Hr']%elem_of_cons & Hid)].
      * left. by right.
      * left. left. congruence.
      * right. by exists r'.
Qed.

(** X15. After a load that returned normally, the identifiers recorded in
    the stock are exactly the identifiers of the timings of the buy records
    of the file. *)
Theorem add_database_keys (self : StockManager.t)
    (db : StockManager.database) (stock : Stock.t) (key : Z) :
  snd (StockManager.add_database self db) = Ok tt ->
  StockManager.stocks (fst (StockManager.add_database self db))
    !! StockManager.name db = Some stock ->
  key ∈ dom (Stock._tr_recorder stock) <->
  exists r, r ∈ StockManager.record db /\
            Transaction.timing2id (StockManager.timing r) = Ok key.
Proof.
  unfold StockManager.add_database.
  pose proof (record_loop_dom (StockManager.record db)
                (Stock.init (StockManager.name db) (StockManager.id db)
                   (StockManager.commission db) (StockManager.stamp_duty db)
                   (StockManager.transfer_fee db)) key) as Hd.
  destruct (StockManager.record_loop _ _) as [stock' r]. simpl in *.
  intros -> Hstock. rewrite lookup_insert_eq in Hstock.
  injection Hstock as <-. rewrite (Hd eq_refl), dom_empty_L. split.
  - intros [Hin|?]; [|done]. by apply not_elem_of_empty in Hin.
  - by right.
Qed.

Lemma add_database_keys_witness :
  2024020610 ∈ dom (Stock._tr_recorder
                      (fst (StockManager.record_loop main_stock
                              (StockManager.record main_db)))) <->
  exists r, r ∈ StockManager.record main_db /\
            Transaction.timing2id (StockManager.timing r) = Ok 2024020610.
Proof.
  apply (add_database_keys StockManager.init main_db).
  - vm_compute. reflexivity.
  - vm_compute. reflexivity.
Defined.

Lemma Stock_buy_other self timing price quantity key :
  Transaction.timing2id timing <> Ok key ->
  Stock._tr_recorder (fst (Stock.buy self timing price quantity)) !! key
    = Stock._tr_recorder self !! key.
Proof.
  rewrite Stock_buy_eq.
  destruct (Transaction.timing2id timing) as [k|e]; [|done].
  intros Hne. cbn [fst Stock._tr_recorder]. apply lookup_insert_ne. congruence.
Qed.

Lemma Stock_sell_other self buy_timing timing price quantity key :
  Transaction.timing2id buy_timing <> Ok key ->
  Stock._tr_recorder (fst (Stock.sell self buy_timing timing price quantity))
    !! key = Stock._tr_recorder self !! key.
Proof.
  destruct (Stock_sell_cases self buy_timing timing price quantity)
    as [->|(tr & k & b & _ & Hkey & _ & ->)]; [done|].
  intros Hne. cbn [fst Stock._tr_recorder]. apply lookup_insert_ne. congruence.
Qed.

Lemma sell_loop_other sells : forall stock buy_timing key,
  Transaction.timing2id buy_timing <> Ok key ->
  Stock._tr_recorder (fst (StockManager.sell_loop stock buy_timing sells))
    !! key = Stock._tr_recorder stock !! key.
Proof.
  induction sells as [|s sells IH]; intros stock buy_timing key Hne; [done|].
  simpl.
  pose proof (Stock_sell_other stock buy_timing (StockManager.sell_timing s)
                (StockManager.sell_price s) (StockManager.sell_quantity s)
                key Hne) as Ho.
  destruct (Stock.sell stock buy_timing _ _ _) as [stock' [ [] | e ] ];
    simpl in *; [|done]. by rewrite IH.
Qed.

Lemma record_loop_other records : forall stock key,
  (forall r, r ∈ records ->
     Transaction.timing2id (StockManager.timing r) <> Ok key) ->
  Stock._tr_recorder (fst (StockManager.record_loop stock records)) !! key
    = Stock._tr_recorder stock !! key.
Proof.
  induction records as [|r records IH]; intros stock key Hne; [done|].
  simpl.
  assert (Transaction.timing2id (StockManager.timing r) <> Ok key) as Hr
    by (apply Hne; left).
  pose proof (Stock_buy_other stock (StockManager.timing r)
                (StockManager.price r) (StockManager.quantity r) key Hr) as Hb.
  destruct (Stock.buy stock _ _ _) as [stock1 [ [] | e1 ] ]; simpl in *;
    [|done].
  pose proof (sell_loop_other (StockManager.sell r) stock1
                (StockManager.timing r) key Hr) as Hs.
  destruct (StockManager.sell_loop stock1 _ _) as [stock2 [ [] | e2 ] ];
    simpl in *; [|congruence].
  rewrite IH; [congruence|]. intros r' Hr'. apply Hne. by right.
Qed.

Lemma sell_loop_Ok sells : forall stock buy_timing key b,
  Transaction.timing2id buy_timing = Ok key ->
  Stock._tr_recorder stock !! key = Some b ->
  snd (StockManager.sell_loop stock buy_timing sells) = Ok tt ->
  exists b' trs,
    Stock._tr_recorder (fst (StockManager.sell_loop stock buy_timing sells))
      !! key = Some b' /\
    BuyTransaction.super b' = BuyTransaction.super b /\
    BuyTransaction.sells b' = BuyTransaction.sells b ++ trs /\
    Forall2 (sell_of_record (Stock.attrs stock)) trs sells /\
    (sells <> [] \/ 0 <= snd (BuyTransaction.quantity_left b) ->
     0 <= snd (BuyTransaction.quantity_left b')).
Proof.
  induction sells as [|s sells IH]; intros stock buy_timing key b Hkey Hb.
  - intros _. exists b, []. simpl. rewrite app_nil_r.
    repeat split; try done. by intros [?|?].
  - simpl. unfold Stock.sell.
    destruct (SellTransaction.init (Stock.attrs stock) _ _ _) as [tr|e]
      eqn:Htr; [|discriminate].
    rewrite Hkey, Hb.
    destruct (BuyTransaction.sell b tr) as [b1 [ [] | e ] ] eqn:Hsell;
      [|discriminate].
    apply sell_Ok_inv in Hsell as (Hsuper & Hsells & Hpos).
    intros Hret.
    destruct (IH _ buy_timing key b1 Hkey (lookup_insert_eq _ _ _) Hret)
      as (b' & trs & Hb' & Hsuper' & Hsells' & Hall & Hpos').
    exists b', (tr :: trs). split; [exact Hb'|]. split; [congruence|].
    split; [by rewrite Hsells', Hsells, <- app_assoc|].
    split; [by constructor|]. intros _. apply Hpos'. by right.
Qed.

Lemma record_loop_Ok records : forall stock,
  snd (StockManager.record_loop stock records) = Ok tt ->
  NoDup (map (fun r => Transaction.timing2id (StockManager.timing r)) records) ->
  forall r, r ∈ records ->
  exists key b b0,
    Transaction.timing2id (StockManager.timing r) = Ok key /\
    Stock._tr_recorder (fst (StockManager.record_loop stock records)) !! key
      = Some b /\
    BuyTransaction.init (Stock.attrs stock) (StockManager.timing r)
      (StockManager.price r) (StockManager.quantity r) = Ok b0 /\
    BuyTransaction.super b = BuyTransaction.super b0 /\
    Forall2 (sell_of_record (Stock.attrs stock)) (BuyTransaction.sells b)
            (StockManager.sell r) /\
    (StockManager.sell r <> [] -> 0 <= snd (BuyTransaction.quantity_left b)).
Proof.
  induction records as [|r0 records IH]; intros stock Hret Hnodup r Hr.
  { by apply not_elem_of_nil in Hr. }
  simpl in Hret, Hnodup |- *. apply NoDup_cons in Hnodup as [Hfresh Hnodup].
  rewrite Stock_buy_eq in Hret |- *.
  destruct (Transaction.timing2id (StockManager.timing r0)) as [k0|e0]
    eqn:Hk0; [|discriminate].
  set (b0 := {| BuyTransaction.super :=
                  {| Transaction.stock := Stock.attrs stock;
                     Transaction.timing := StockManager.timing r0;
                     Transaction.id := k0;
                     Transaction.price := StockManager.price r0;
                     Transaction.quantity := StockManager.quantity r0 |};
                BuyTransaction.empty := false;
                BuyTransaction.sells := [] |}) in *.
  set (stock1 := {| Stock.attrs := Stock.attrs stock;
                    Stock._tr_recorder :=
                      <[k0 := b0]> (Stock._tr_recorder stock) |}) in *.
  pose proof (sell_loop_Ok (StockManager.sell r0) stock1
                (StockManager.timing r0) k0 b0 Hk0 (lookup_insert_eq _ _ _))
    as Hloop.
  pose proof (sell_loop_attrs (StockManager.sell r0) stock1
                (StockManager.timing r0)) as Hattrs.
  destruct (StockManager.sell_loop stock1 _ _) as [stock2 [ [] | e2 ] ];
    simpl in Hret, Hloop, Hattrs |- *; [|discriminate].
  change (Stock.attrs stock1) with (Stock.attrs stock) in *.
  apply elem_of_cons in Hr as [->|Hr].
  - destruct (Hloop eq_refl) as (b' & trs & Hb' & Hsuper & Hsells & Hall & Hpos).
    exists k0, b', b0. split; [exact Hk0|]. split.
    + rewrite record_loop_other; [exact Hb'|].
      intros r' Hr' Hid. apply Hfresh. apply list_elem_of_In, in_map_iff.
      exists r'. split; [exact Hid | by apply list_elem_of_In].
    + split; [by apply BuyTransaction_init_Ok|]. split; [exact Hsuper|].
      simpl in Hsells. subst trs. split; [exact Hall|].
      intros Hne. apply Hpos. by left.
  - destruct (IH stock2 Hret Hnodup r Hr)
      as (key & b & b1 & Hkey & Hb & Hinit & Hsuper & Hall & Hpos).
    rewrite Hattrs in Hinit, Hall. by exists key, b, b1.
Qed.

(** X16. Round trip of a load. After a load that returned normally of a
    record whose buy timings have pairwise distinct identifiers, every buy
    record is found in the stock under the identifier of its timing: the
    entry has the timing, price and quantity of the record (it is the buy
    the constructor builds, apart from the [empty] flag), its sells are, in
    the order of the file, the sells the constructor builds from the sell
    records, and when there is at least one its [quantity_left] is not
    negative. *)
Theorem add_database_content (self : StockManager.t)
    (db : StockManager.database) (stock : Stock.t)
    (r : StockManager.buy_record) :
  snd (StockManager.add_database self db) = Ok tt ->
  NoDup (map (fun r => Transaction.timing2id (StockManager.timing r))
             (StockManager.record db)) ->
  StockManager.stocks (fst (StockManager.add_database self db))
    !! StockManager.name db = Some stock ->
  r ∈ StockManager.record db ->
  exists key b b0,
    Transaction.timing2id (StockManager.timing r) = Ok key /\
    Stock._tr_recorder stock !! key = Some b /\
    BuyTransaction.init (Stock.attrs stock) (StockManager.timing r)
      (StockManager.price r) (StockManager.quantity r) = Ok b0 /\
    BuyTransaction.super b = BuyTransaction.super b0 /\
    Forall2 (sell_of_record (Stock.attrs stock)) (BuyTransaction.sells b)
            (StockManager.sell r) /\
    (StockManager.sell r <> [] -> 0 <= snd (BuyTransaction.quantity_left b)).
Proof.
  unfold StockManager.add_database.
  pose proof (record_loop_Ok (StockManager.record db)
                (Stock.init (StockManager.name db) (StockManager.id db)
                   (StockManager.commission db) (StockManager.stamp_duty db)
                   (StockManager.transfer_fee db))) as Hc.
  pose proof (record_loop_attrs (StockManager.record db)
                (Stock.init (StockManager.name db) (StockManager.id db)
                   (StockManager.commission db) (StockManager.stamp_duty db)
                   (StockManager.transfer_fee db))) as Ha.
  destruct (StockManager.record_loop _ _) as [stock' res]. simpl in *.
  intros -> Hnodup Hstock Hr. rewrite lookup_insert_eq in Hstock.
  injection Hstock as <-. rewrite Ha. by apply Hc.
Qed.

Lemma add_database_content_witness :
  exists key b b0,
    Transaction.timing2id "2024-0205-10" = Ok key /\
    Stock._tr_recorder
      (fst (StockManager.record_loop main_stock (StockManager.record main_db)))
      !! key = Some b /\
    BuyTransaction.init (Stock.attrs main_stock) "2024-0205-10" (PyFloat 25.6)
                        200 = Ok b0 /\
    BuyTransaction.super b = BuyTransaction.super b0 /\
    Forall2 (sell_of_record (Stock.attrs main_stock)) (BuyTransaction.sells b)
      [ {| StockManager.sell_timing := "2024-0312-14";
           StockManager.sell_price := PyFloat 36.36;
           StockManager.sell_quantity := 200 |} ] /\
    ([ {| StockManager.sell_timing := "2024-0312-14";
          StockManager.sell_price := PyFloat 36.36;
          StockManager.sell_quantity := 200 |} ] <> [] ->
     0 <= snd (BuyTransaction.quantity_left b)).
Proof.
  apply (add_database_content StockManager.init main_db
           (fst (StockManager.record_loop main_stock
                   (StockManager.record main_db)))
           {| StockManager.timing := "2024-0205-10";
              StockManager.price := PyFloat 25.6;
              StockManager.quantity := 200;
              StockManager.sell :=
                [ {| StockManager.sell_timing := "2024-0312-14";
                     StockManager.sell_price := PyFloat 36.36;
                     StockManager.sell_quantity := 200 |} ] |}).
  - vm_compute. reflexivity.
  - apply NoDup_cons. split.
    + intros [H|H]%elem_of_cons; [discriminate H|].
      by apply not_elem_of_nil in H.
    + apply NoDup_singleton.
  - vm_compute. reflexivity.
  - left.
Defined.

Lemma record_loop_dom_grows records : forall stock key,
  key ∈ dom (Stock._tr_recorder stock) ->
  key ∈ dom (Stock._tr_recorder (fst (StockManager.record_loop stock records))).
Proof.
  induction records as [|r records IH]; intros stock key Hin; [done|].
  simpl. rewrite Stock_buy_eq.
  destruct (Transaction.timing2id (StockManager.timing r)) as [k|e]; [|done].
  set (stock1 := {| Stock.attrs := Stock.attrs stock;
                    Stock._tr_recorder := _ |}).
  assert (key ∈ dom (Stock._tr_recorder stock1)) as Hin1.
  { simpl. rewrite dom_insert_L. apply elem_of_union. by right. }
  pose proof (sell_loop_dom (StockManager.sell r) stock1
                (StockManager.timing r)) as Hs.
  destruct (StockManager.sell_loop stock1 _ _) as [stock2 [ [] | e2 ] ];
    simpl in *.
  - apply IH. by rewrite Hs.
  - by rewrite Hs.
Qed.

(** X17. A failed load is not rolled back: when the timing of the first
    buy record has an identifier, the stock left in the registry has a buy
    under that identifier, whatever the outcome of the load (also when a
    later sell or buy record makes it fail). *)
Theorem add_database_partial (self : StockManager.t)
    (db : StockManager.database) (r : StockManager.buy_record)
    (rs : list StockManager.buy_record) (key : Z) :
  StockManager.record db = r :: rs ->
  Transaction.timing2id (StockManager.timing r) = Ok key ->
  exists stock,
    StockManager.stocks (fst (StockManager.add_database self db))
      !! StockManager.name db = Some stock /\
    key ∈ dom (Stock._tr_recorder stock).
Proof.
  intros Hrec Hkey. unfold StockManager.add_database. rewrite Hrec.
  simpl. rewrite Stock_buy_eq, Hkey.
  set (stock1 := {| Stock.attrs := _; Stock._tr_recorder := _ |}).
  assert (key ∈ dom (Stock._tr_recorder stock1)) as Hin1.
  { simpl. rewrite dom_insert_L. apply elem_of_union. left.
    by apply elem_of_singleton. }
  pose proof (sell_loop_dom (StockManager.sell r) stock1
                (StockManager.timing r)) as Hs.
  destruct (StockManager.sell_loop stock1 _ _) as [stock2 [ [] | e2 ] ];
    simpl in *.
  - pose proof (record_loop_dom_grows rs stock2 key) as Hg.
    destruct (StockManager.record_loop stock2 rs) as [stock3 res]. simpl in *.
    exists stock3. split; [apply lookup_insert_eq|]. apply Hg. by rewrite Hs.
  - exists stock2. split; [apply lookup_insert_eq|]. by rewrite Hs.
Qed.

Lemma add_database_partial_witness :
  snd (StockManager.add_database StockManager.init oversold_db)
    = Raise (AssertionError (Some (-1))) /\
  exists stock,
    StockManager.stocks
      (fst (StockManager.add_database StockManager.init oversold_db))
      !! "ABC"%string = Some stock /\
    2024020510 ∈ dom (Stock._tr_recorder stock).
Proof.
  split; [vm_compute; reflexivity|].
  apply (add_database_partial StockManager.init oversold_db _ _ 2024020510
           eq_refl eq_refl).
Defined.

(** ** Errors of the fee properties *)




Section FeeErrors.
Context {T : Type} `{Transaction.Like T}.
Variable self : T.
Hypothesis service_percent_overflow :
  forall e, Transaction.service_percent self = Raise e -> e = OverflowError.



End FeeErrors.





(** ** [BuyTransaction.__str__] *)

Section RenderingLaws.
Variable py_format : pynum -> string.



End RenderingLaws.
